(** * FabricUtilityApp: the asset registry chaincode (utilityGo/main.go)

    A shallow embedding of the [SmartContract] methods of main.go and the
    properties of the asset life cycle, the two approval steps and the
    bulk query.

    The chaincode talks to two libraries that are not part of the
    repository: the ledger stub ([ctx.GetStub()]) and [encoding/json].
    - The stub is modelled as a world state (a finite map from keys to
      byte strings) together with a table of calls the platform refuses;
      every stub call either goes through or returns the platform's error
      and leaves the world state as it was.
    - The JSON codec is a parameter of the development: [json_Marshal]
      and [json_Unmarshal] are section variables, and each statement says
      which records it needs to survive encoding and decoding. *)

From Stdlib Require Import ZArith String Ascii Decimal DecimalString DecimalZ DecimalPos.
From stdpp Require Import base option list gmap strings sorting.

Local Open Scope Z_scope.
Local Open Scope string_scope.
Local Open Scope list_scope.

(** ** Values shared with the libraries *)

(** Go's [[]byte]: a sequence of 8-bit characters. *)
Definition bytes := string.

(** Go's [error], by the text of [err.Error()]. *)
Definition error := string.

(** A Go result pair [(value, err)]: [Ok v] is [(v, nil)]. *)
Inductive result (A : Type) : Type :=
| Ok (a : A)
| Err (err : error).
Arguments Ok {A} a.
Arguments Err {A} err.

(** ** Data model (main.go, lines 19-33) *)

(** [type Asset struct]; Go's [int] fields carry no arithmetic here and
    are kept as integers. *)
Record Asset : Type := mkAsset {
  ID : string;
  Description : string;
  Owner : string;
  ApprovalOne : Z;
  ApprovalTwo : Z;
  Registered : Z
}.

(** [type QueryResult struct]; the field [Record] of the source is
    spelled [Record_] because [Record] is reserved. *)
Record QueryResult : Type := mkQueryResult {
  Key : string;
  Record_ : Asset
}.

(** Field assignments through the [*Asset] pointer that [ReadAsset] returns. *)
Definition set_Owner (newOwner : string) (asset : Asset) : Asset :=
  mkAsset (ID asset) (Description asset) newOwner
          (ApprovalOne asset) (ApprovalTwo asset) (Registered asset).

Definition set_ApprovalOne (v : Z) (asset : Asset) : Asset :=
  mkAsset (ID asset) (Description asset) (Owner asset)
          v (ApprovalTwo asset) (Registered asset).

Definition set_ApprovalTwo (v : Z) (asset : Asset) : Asset :=
  mkAsset (ID asset) (Description asset) (Owner asset)
          (ApprovalOne asset) v (Registered asset).

Definition set_Registered (v : Z) (asset : Asset) : Asset :=
  mkAsset (ID asset) (Description asset) (Owner asset)
          (ApprovalOne asset) (ApprovalTwo asset) v.

(** ** The ledger stub *)

(** The calls the chaincode makes on [ctx.GetStub()] and on the range
    iterator. *)
Inductive StubCall : Type :=
| CallGetState (key : string)
| CallPutState (key : string) (value : bytes)
| CallDelState (key : string)
| CallGetStateByRange (startKey endKey : string)
| CallNext (key : string).

(** One entry of a range scan ([queryresult.KV]). *)
Record KV : Type := mkKV {
  kvKey : string;
  kvValue : bytes
}.

(** The stub of one invocation: the world state it reads and writes, and
    the calls the platform answers with an error. *)
Record ChaincodeStub : Type := mkStub {
  world : gmap string bytes;
  refuse : StubCall → option error
}.

(** A stub all of whose calls go through. *)
Definition reliable (stub : ChaincodeStub) : Prop :=
  ∀ c, refuse stub c = None.

Definition no_refusal : StubCall → option error := λ _, None.

(** ** Transactions: state and error passing *)

Definition Tx (A : Type) : Type := ChaincodeStub → result A * ChaincodeStub.

Global Instance Tx_ret : MRet Tx := λ A a stub, (Ok a, stub).

Global Instance Tx_bind : MBind Tx := λ A B f m stub,
  match m stub with
  | (Ok a, stub') => f a stub'
  | (Err err, stub') => (Err err, stub')
  end.

(** A library result used inside a transaction. *)
Definition liftR {A} (r : result A) : Tx A := λ stub, (r, stub).

(** [if err != nil { return fmt.Errorf(...) }]: rewrite the error of [m]. *)
Definition onErr {A} (f : error → error) (m : Tx A) : Tx A := λ stub,
  match m stub with
  | (Ok a, stub') => (Ok a, stub')
  | (Err err, stub') => (Err (f err), stub')
  end.

(** ** Stub calls *)

Definition GetState (key : string) : Tx (option bytes) := λ stub,
  match refuse stub (CallGetState key) with
  | Some err => (Err err, stub)
  | None => (Ok (world stub !! key), stub)
  end.

Definition PutState (key : string) (value : bytes) : Tx unit := λ stub,
  match refuse stub (CallPutState key value) with
  | Some err => (Err err, stub)
  | None => (Ok tt, mkStub (<[key := value]> (world stub)) (refuse stub))
  end.

Definition DelState (key : string) : Tx unit := λ stub,
  match refuse stub (CallDelState key) with
  | Some err => (Err err, stub)
  | None => (Ok tt, mkStub (delete key (world stub)) (refuse stub))
  end.

(** Keys are ordered bytewise, the order of the ledger's range scans. *)
Definition key_le (x y : string * bytes) : Prop := String.leb x.1 y.1 = true.

Global Instance key_le_dec x y : Decision (key_le x y).
Proof. unfold key_le. apply _. Defined.

(** [startKey <= key < endKey], an empty bound being open. *)
Definition in_range (startKey endKey : string) (kv : string * bytes) : bool :=
  String.leb startKey kv.1 &&
  (String.eqb endKey "" || String.ltb kv.1 endKey).

Definition range_scan (startKey endKey : string) (w : gmap string bytes) : list KV :=
  (λ kv, mkKV kv.1 kv.2) <$>
    merge_sort key_le (List.filter (in_range startKey endKey) (map_to_list w)).

(** The iterator of [GetStateByRange] is the list of entries it has yet
    to deliver: [HasNext] asks whether it is non-empty and [Next] takes
    its head. *)
Definition GetStateByRange (startKey endKey : string) : Tx (list KV) := λ stub,
  match refuse stub (CallGetStateByRange startKey endKey) with
  | Some err => (Err err, stub)
  | None => (Ok (range_scan startKey endKey (world stub)), stub)
  end.

Definition Next (entry : KV) : Tx KV := λ stub,
  match refuse stub (CallNext (kvKey entry)) with
  | Some err => (Err err, stub)
  | None => (Ok entry, stub)
  end.

(** ** The contract (main.go) *)

Section SmartContract.

(** [encoding/json] on the [Asset] struct. [json_Unmarshal] decodes
    into a fresh [new(Asset)]. *)
Variable json_Marshal : Asset → result bytes.
Variable json_Unmarshal : bytes → result Asset.

(** A record that survives encoding and decoding. *)
Definition lossless (asset : Asset) : Prop :=
  ∃ assetJSON, json_Marshal asset = Ok assetJSON ∧
               json_Unmarshal assetJSON = Ok asset.

(** The error texts of the contract. *)
Definition AlreadyExists (id : string) : error :=
  "The asset " +:+ id +:+ " already exists".
Definition NotFound (id : string) : error :=
  "The asset " +:+ id +:+ " does not exist".
Definition ReadFailed (err : error) : error :=
  "Failed to read from world state. " +:+ err.
Definition PutFailed (err : error) : error :=
  "Failed to put to world state. " +:+ err.

(** AssetExists (lines 146-153). *)
Definition AssetExists (id : string) : Tx bool :=
  assetJSON ← onErr ReadFailed (GetState id);
  mret (bool_decide (assetJSON ≠ None)).

(** The seed records of InitLedger (lines 37-40). *)
Definition seed_assets : list Asset :=
  [ mkAsset "asset1" "myAsset" "Org1" 0 0 0;
    mkAsset "asset2" "anotherAsset" "Org1" 0 0 0 ].

(** The loop of InitLedger (lines 42-52). *)
Fixpoint InitLedger_loop (assets : list Asset) : Tx unit :=
  match assets with
  | [] => mret tt
  | asset :: rest =>
      assetJSON ← liftR (json_Marshal asset);
      onErr PutFailed (PutState (ID asset) assetJSON);;
      InitLedger_loop rest
  end.

(** InitLedger (lines 36-55). *)
Definition InitLedger : Tx unit := InitLedger_loop seed_assets.

(** CreateAsset (lines 58-82). *)
Definition CreateAsset (id description owner : string)
    (approvalOne approvalTwo registered : Z) : Tx unit :=
  exists_ ← AssetExists id;
  if (exists_ : bool) then liftR (Err (AlreadyExists id))
  else
    let asset := mkAsset id description owner approvalOne approvalTwo registered in
    assetJSON ← liftR (json_Marshal asset);
    PutState id assetJSON.

(** ReadAsset (lines 85-101). *)
Definition ReadAsset (id : string) : Tx Asset :=
  assetJSON ← onErr ReadFailed (GetState id);
  match assetJSON with
  | None => liftR (Err (NotFound id))
  | Some assetJSON => liftR (json_Unmarshal assetJSON)
  end.

(** UpdateAsset (lines 104-130). *)
Definition UpdateAsset (id description owner : string)
    (approvalOne approvalTwo registered : Z) : Tx unit :=
  exists_ ← AssetExists id;
  if negb exists_ then liftR (Err (NotFound id))
  else
    let asset := mkAsset id description owner approvalOne approvalTwo registered in
    assetJSON ← liftR (json_Marshal asset);
    PutState id assetJSON.

(** DeleteAsset (lines 133-143). *)
Definition DeleteAsset (id : string) : Tx unit :=
  exists_ ← AssetExists id;
  if negb exists_ then liftR (Err (NotFound id))
  else DelState id.

(** TransferAsset (lines 156-170). *)
Definition TransferAsset (id newOwner : string) : Tx unit :=
  asset ← ReadAsset id;
  let asset := set_Owner newOwner asset in
  assetJSON ← liftR (json_Marshal asset);
  PutState id assetJSON.

(** ApproveRequestOne (lines 173-187). *)
Definition ApproveRequestOne (id : string) : Tx unit :=
  asset ← ReadAsset id;
  let asset := set_ApprovalOne 1 asset in
  assetJSON ← liftR (json_Marshal asset);
  PutState id assetJSON.

(** ApproveRequestTwo (lines 191-206). *)
Definition ApproveRequestTwo (id : string) : Tx unit :=
  asset ← ReadAsset id;
  let asset := set_ApprovalTwo 1 asset in
  let asset := set_Registered 1 asset in
  assetJSON ← liftR (json_Marshal asset);
  PutState id assetJSON.

(** The loop of GetAllAssets (lines 220-235): while the iterator has a
    next entry, take it, decode its value and append the pair. *)
Fixpoint GetAllAssets_loop (resultsIterator : list KV)
    (results : list QueryResult) : Tx (list QueryResult) :=
  match resultsIterator with
  | [] => mret results
  | entry :: rest =>
      queryResponse ← Next entry;
      asset ← liftR (json_Unmarshal (kvValue queryResponse));
      let queryResult := mkQueryResult (kvKey queryResponse) asset in
      GetAllAssets_loop rest (results ++ [queryResult])
  end.

(** GetAllAssets (lines 209-238). The deferred [Close] of the iterator
    releases a resource of the platform and leaves the world state as it
    is. *)
Definition GetAllAssets : Tx (list QueryResult) :=
  resultsIterator ← GetStateByRange "" "";
  GetAllAssets_loop resultsIterator [].

(** ** Shapes shared by the writers (used to state lemmas once)

    Every writer ends by encoding a record and putting it under [id];
    TransferAsset and the two approvals read the record, assign to it
    and write it back. *)
Definition write_back (id : string) (asset : Asset) : Tx unit :=
  assetJSON ← liftR (json_Marshal asset); PutState id assetJSON.

Definition modify (change : Asset → Asset) (id : string) : Tx unit :=
  asset ← ReadAsset id; write_back id (change asset).

(** ** Invocations

    The platform dispatches a named invocation to the method of that
    name; only the error and the stub it leaves matter to the ledger. *)
Inductive Invocation : Type :=
| InvokeInitLedger
| InvokeCreateAsset (id description owner : string)
    (approvalOne approvalTwo registered : Z)
| InvokeReadAsset (id : string)
| InvokeUpdateAsset (id description owner : string)
    (approvalOne approvalTwo registered : Z)
| InvokeDeleteAsset (id : string)
| InvokeAssetExists (id : string)
| InvokeTransferAsset (id newOwner : string)
| InvokeApproveRequestOne (id : string)
| InvokeApproveRequestTwo (id : string)
| InvokeGetAllAssets.

Definition discard {A} (m : Tx A) : Tx unit := m;; mret tt.

Definition invoke (inv : Invocation) : Tx unit :=
  match inv with
  | InvokeInitLedger => InitLedger
  | InvokeCreateAsset id description owner approvalOne approvalTwo registered =>
      CreateAsset id description owner approvalOne approvalTwo registered
  | InvokeReadAsset id => discard (ReadAsset id)
  | InvokeUpdateAsset id description owner approvalOne approvalTwo registered =>
      UpdateAsset id description owner approvalOne approvalTwo registered
  | InvokeDeleteAsset id => DeleteAsset id
  | InvokeAssetExists id => discard (AssetExists id)
  | InvokeTransferAsset id newOwner => TransferAsset id newOwner
  | InvokeApproveRequestOne id => ApproveRequestOne id
  | InvokeApproveRequestTwo id => ApproveRequestTwo id
  | InvokeGetAllAssets => discard GetAllAssets
  end.

(** The operations that work on the one record named by their [id]. *)
Definition single_record (inv : Invocation) : bool :=
  match inv with
  | InvokeCreateAsset _ _ _ _ _ _ | InvokeUpdateAsset _ _ _ _ _ _
  | InvokeDeleteAsset _ | InvokeTransferAsset _ _
  | InvokeApproveRequestOne _ | InvokeApproveRequestTwo _ => true
  | _ => false
  end.

(** The asset stored under [id]: the value at that key decodes to it. *)
Definition stored (stub : ChaincodeStub) (id : string) (asset : Asset) : Prop :=
  ∃ assetJSON, world stub !! id = Some assetJSON ∧
               json_Unmarshal assetJSON = Ok asset.

(** An entry whose value decodes. *)
Definition decodes (entry : KV) : Prop :=
  ∃ asset, json_Unmarshal (kvValue entry) = Ok asset.

(** A result pair made of an entry: its key and its decoded value. *)
Definition result_of (entry : KV) (queryResult : QueryResult) : Prop :=
  Key queryResult = kvKey entry ∧
  json_Unmarshal (kvValue entry) = Ok (Record_ queryResult).

(** The asset stored under [id] has the flag [Registered] at [v]. *)
Definition has_Registered (stub : ChaincodeStub) (id : string) (v : Z) : Prop :=
  ∃ asset, stored stub id asset ∧ Registered asset = v.

(** The invariant on [Registered] in the words of the data model: a
    successful invocation after which the flag under [id] is 1 when it
    was not before is the second approval of [id], and one after which
    it is 0 when it was 1 before is an UpdateAsset of [id]. *)
Definition Registered_only_by_second_approval : Prop :=
  ∀ inv stub stub' id,
    reliable stub →
    invoke inv stub = (Ok tt, stub') →
    (¬ has_Registered stub id 1 → has_Registered stub' id 1 →
       inv = InvokeApproveRequestTwo id) ∧
    (has_Registered stub id 1 → has_Registered stub' id 0 →
       ∃ description owner approvalOne approvalTwo registered,
         inv = InvokeUpdateAsset id description owner
                 approvalOne approvalTwo registered).

(** The [Registered] value an invocation writes under [id], if it
    writes one there: the second approval writes 1, CreateAsset and
    UpdateAsset their [registered] argument, InitLedger the 0 of its
    seed records. *)
Definition Registered_written (inv : Invocation) (id : string) : option Z :=
  match inv with
  | InvokeApproveRequestTwo id' => if decide (id' = id) then Some 1 else None
  | InvokeCreateAsset id' _ _ _ _ registered
  | InvokeUpdateAsset id' _ _ _ _ registered =>
      if decide (id' = id) then Some registered else None
  | InvokeInitLedger =>
      if decide (id ∈ ID <$> seed_assets) then Some 0 else None
  | _ => None
  end.

(** The codec hands the [registered] field back as it was given. *)
Definition keeps_Registered : Prop :=
  ∀ asset assetJSON asset',
    json_Marshal asset = Ok assetJSON →
    json_Unmarshal assetJSON = Ok asset' →
    Registered asset' = Registered asset.

(** ** Vocabulary for the further properties *)

(** The key an invocation names. *)
Definition target (inv : Invocation) : option string :=
  match inv with
  | InvokeCreateAsset id _ _ _ _ _ | InvokeUpdateAsset id _ _ _ _ _
  | InvokeReadAsset id | InvokeDeleteAsset id | InvokeAssetExists id
  | InvokeTransferAsset id _
  | InvokeApproveRequestOne id | InvokeApproveRequestTwo id => Some id
  | InvokeInitLedger | InvokeGetAllAssets => None
  end.

(** The keys an invocation may put or delete: the key a writer names,
    the keys of the seed records for InitLedger, none for the readers. *)
Definition touched (inv : Invocation) : list string :=
  match inv with
  | InvokeInitLedger => ID <$> seed_assets
  | InvokeCreateAsset id _ _ _ _ _ | InvokeUpdateAsset id _ _ _ _ _
  | InvokeDeleteAsset id | InvokeTransferAsset id _
  | InvokeApproveRequestOne id | InvokeApproveRequestTwo id => [id]
  | InvokeReadAsset _ | InvokeAssetExists _ | InvokeGetAllAssets => []
  end.

(** The operations that only read. *)
Definition reads_only (inv : Invocation) : bool :=
  match inv with
  | InvokeReadAsset _ | InvokeAssetExists _ | InvokeGetAllAssets => true
  | _ => false
  end.


(** The codec hands the [approvalTwo] field back as it was given. *)
Definition keeps_ApprovalTwo : Prop :=
  ∀ asset assetJSON asset',
    json_Marshal asset = Ok assetJSON →
    json_Unmarshal assetJSON = Ok asset' →
    ApprovalTwo asset' = ApprovalTwo asset.

(** Every asset of the world state is registered exactly as far as it
    has its second approval. *)
Definition tracks_second_approval (stub : ChaincodeStub) : Prop :=
  ∀ key asset, stored stub key asset → Registered asset = ApprovalTwo asset.

(** An invocation whose own [registered] and [approvalTwo] arguments, if
    it has them, are equal. *)
Definition paired_flags (inv : Invocation) : Prop :=
  match inv with
  | InvokeCreateAsset _ _ _ _ approvalTwo registered
  | InvokeUpdateAsset _ _ _ _ approvalTwo registered => registered = approvalTwo
  | _ => True
  end.


End SmartContract.

(** ** A codec to run the contract with

    The flat JSON object of the wire encoding, with the fields in the
    order of the struct: strings between double quotes with the quote
    and the backslash escaped, integers in decimal. It instantiates the
    codec parameters wherever the contract is run on concrete data. *)
Module FlatJSON.

Definition dquote : ascii := "034"%char.
Definition backslash : ascii := "092"%char.

Definition needs_escape (c : ascii) : bool :=
  Ascii.eqb c dquote || Ascii.eqb c backslash.

(** Printers write in front of the text that follows. *)
Fixpoint put_escaped (s rest : string) : string :=
  match s with
  | EmptyString => rest
  | String c s' =>
      if needs_escape c
      then String backslash (String c (put_escaped s' rest))
      else String c (put_escaped s' rest)
  end.

Definition put_string (s rest : string) : string :=
  String dquote (put_escaped s (String dquote rest)).

Definition itoa (z : Z) : string := NilZero.string_of_int (Z.to_int z).

Definition put_int (z : Z) (rest : string) : string := itoa z +:+ rest.

Definition put_label (name rest : string) : string :=
  put_string name (String ":" rest).

Definition encode (asset : Asset) : bytes :=
  String "{" (put_label "ID" (put_string (ID asset)
  (String "," (put_label "description" (put_string (Description asset)
  (String "," (put_label "owner" (put_string (Owner asset)
  (String "," (put_label "approvalOne" (put_int (ApprovalOne asset)
  (String "," (put_label "approvalTwo" (put_int (ApprovalTwo asset)
  (String "," (put_label "registered" (put_int (Registered asset)
  (String "}" EmptyString)))))))))))))))))).

(** Parsers return the value read and the text that follows it. *)
Definition get_char (c : ascii) (s : string) : option string :=
  match s with
  | String d s' => if Ascii.eqb c d then Some s' else None
  | EmptyString => None
  end.

Fixpoint get_escaped (s : string) : option (string * string) :=
  match s with
  | EmptyString => None
  | String c s' =>
      if Ascii.eqb c dquote then Some (EmptyString, s')
      else if Ascii.eqb c backslash then
        match s' with
        | String d s'' =>
            if needs_escape d then
              match get_escaped s'' with
              | Some (r, rest) => Some (String d r, rest)
              | None => None
              end
            else None
        | EmptyString => None
        end
      else
        match get_escaped s' with
        | Some (r, rest) => Some (String c r, rest)
        | None => None
        end
  end.

Definition get_string (s : string) : option (string * string) :=
  s ← get_char dquote s; get_escaped s.

Definition is_num_char (c : ascii) : bool :=
  Ascii.eqb c "-" || (Ascii.leb "0" c && Ascii.leb c "9").

Fixpoint span_num (s : string) : string * string :=
  match s with
  | EmptyString => (EmptyString, EmptyString)
  | String c s' =>
      if is_num_char c
      then let '(n, rest) := span_num s' in (String c n, rest)
      else (EmptyString, s)
  end.

(** Text that does not go on with the characters of a number. *)
Definition ends_number (rest : string) : Prop :=
  match rest with
  | EmptyString => True
  | String c _ => is_num_char c = false
  end.

Definition get_int (s : string) : option (Z * string) :=
  let '(n, rest) := span_num s in
  d ← NilZero.int_of_string n; Some (Z.of_int d, rest).

Definition get_label (name s : string) : option string :=
  '(n, s) ← get_string s;
  if String.eqb n name then get_char ":" s else None.

Definition decode (data : bytes) : option Asset :=
  s ← get_char "{" data;
  s ← get_label "ID" s; '(id, s) ← get_string s;
  s ← get_char "," s;
  s ← get_label "description" s; '(description, s) ← get_string s;
  s ← get_char "," s;
  s ← get_label "owner" s; '(owner, s) ← get_string s;
  s ← get_char "," s;
  s ← get_label "approvalOne" s; '(approvalOne, s) ← get_int s;
  s ← get_char "," s;
  s ← get_label "approvalTwo" s; '(approvalTwo, s) ← get_int s;
  s ← get_char "," s;
  s ← get_label "registered" s; '(registered, s) ← get_int s;
  s ← get_char "}" s;
  match s with
  | EmptyString =>
      Some (mkAsset id description owner approvalOne approvalTwo registered)
  | String _ _ => None
  end.

Definition json_Marshal (asset : Asset) : result bytes := Ok (encode asset).

Definition json_Unmarshal (data : bytes) : result Asset :=
  match decode data with
  | Some asset => Ok asset
  | None => Err "invalid character looking for beginning of value"
  end.

End FlatJSON.

(** A stub over a given world state that refuses nothing. *)
Definition stub_of (w : gmap string bytes) : ChaincodeStub := mkStub w no_refusal.

(** ** Ledgers to run the contract on *)
Module Ledger.

Definition asset1 : Asset := mkAsset "asset1" "myAsset" "Org1" 0 0 0.
Definition asset2 : Asset := mkAsset "asset2" "anotherAsset" "Org1" 0 0 0.

(** The ledger after InitLedger. *)
Definition seeded : ChaincodeStub :=
  stub_of (<["asset2" := FlatJSON.encode asset2]>
             (<["asset1" := FlatJSON.encode asset1]> ∅)).

(** The seeded ledger with a value under asset2 that is not an asset. *)
Definition damaged : ChaincodeStub :=
  stub_of (<["asset2" := "{"]> (world seeded)).

(** The seeded ledger on a platform that refuses every write. *)
Definition read_only : ChaincodeStub :=
  mkStub (world seeded)
    (λ c, match c with
          | CallPutState _ _ | CallDelState _ => Some "ledger is read-only"
          | _ => None
          end).

(** The seeded ledger on a platform that refuses to read asset1. *)
Definition unreadable : ChaincodeStub :=
  mkStub (world seeded)
    (λ c, match c with
          | CallGetState key =>
              if String.eqb key "asset1" then Some "peer unavailable" else None
          | _ => None
          end).

(** The empty ledger on a platform that refuses the write of asset2. *)
Definition half_refused : ChaincodeStub :=
  mkStub ∅
    (λ c, match c with
          | CallPutState key _ =>
              if String.eqb key "asset2" then Some "peer unavailable" else None
          | _ => None
          end).

End Ledger.

(** * Properties *)

(** ** Running transactions *)

Lemma bind_Ok {A B} (m : Tx A) (f : A → Tx B) stub a stub' :
  m stub = (Ok a, stub') → (m ≫= f) stub = f a stub'.
Proof. intros H. unfold mbind, Tx_bind. by rewrite H. Qed.

Lemma bind_Err {A B} (m : Tx A) (f : A → Tx B) stub err stub' :
  m stub = (Err err, stub') → (m ≫= f) stub = (Err err, stub').
Proof. intros H. unfold mbind, Tx_bind. by rewrite H. Qed.

(** What a bind that went through went through. *)
Lemma bind_Ok_inv {A B} (m : Tx A) (f : A → Tx B) stub b stub2 :
  (m ≫= f) stub = (Ok b, stub2) →
  ∃ a stub1, m stub = (Ok a, stub1) ∧ f a stub1 = (Ok b, stub2).
Proof.
  unfold mbind, Tx_bind. destruct (m stub) as [[a|err] stub1] eqn:E; [|done].
  intros H. exists a, stub1. by split.
Qed.

(** Where the error of a bind comes from. *)
Lemma bind_Err_inv {A B} (m : Tx A) (f : A → Tx B) stub err stub2 :
  (m ≫= f) stub = (Err err, stub2) →
  m stub = (Err err, stub2) ∨
  ∃ a stub1, m stub = (Ok a, stub1) ∧ f a stub1 = (Err err, stub2).
Proof.
  unfold mbind, Tx_bind. destruct (m stub) as [[a|e] stub1] eqn:E; intros H.
  - right. exists a, stub1. by split.
  - left. by injection H as -> ->.
Qed.

Lemma GetState_Ok stub key :
  refuse stub (CallGetState key) = None →
  GetState key stub = (Ok (world stub !! key), stub).
Proof. intros H. unfold GetState. by rewrite H. Qed.

Lemma GetState_keeps stub key r stub' :
  GetState key stub = (r, stub') → stub' = stub.
Proof. unfold GetState. destruct (refuse stub _); by intros [= _ <-]. Qed.

Lemma PutState_Ok stub key value :
  refuse stub (CallPutState key value) = None →
  PutState key value stub = (Ok tt, mkStub (<[key := value]> (world stub)) (refuse stub)).
Proof. intros H. unfold PutState. by rewrite H. Qed.

Lemma PutState_Ok_inv stub key value u stub' :
  PutState key value stub = (Ok u, stub') →
  stub' = mkStub (<[key := value]> (world stub)) (refuse stub).
Proof. unfold PutState. destruct (refuse stub _); by intros [= _ <-]. Qed.

Lemma PutState_Err stub key value err stub' :
  PutState key value stub = (Err err, stub') → stub' = stub.
Proof. unfold PutState. destruct (refuse stub _); by intros [= _ <-]. Qed.

Lemma DelState_Ok_inv stub key u stub' :
  DelState key stub = (Ok u, stub') →
  stub' = mkStub (delete key (world stub)) (refuse stub).
Proof. unfold DelState. destruct (refuse stub _); by intros [= _ <-]. Qed.

Lemma DelState_Err stub key err stub' :
  DelState key stub = (Err err, stub') → stub' = stub.
Proof. unfold DelState. destruct (refuse stub _); by intros [= _ <-]. Qed.

Lemma AssetExists_Ok stub id :
  refuse stub (CallGetState id) = None →
  AssetExists id stub = (Ok (bool_decide (world stub !! id ≠ None)), stub).
Proof.
  intros H. unfold AssetExists, mbind, Tx_bind, onErr. by rewrite GetState_Ok.
Qed.

Lemma AssetExists_keeps stub id r stub' :
  AssetExists id stub = (r, stub') → stub' = stub.
Proof.
  unfold AssetExists, mbind, Tx_bind, onErr, GetState, mret, Tx_ret.
  destruct (refuse stub _); by intros [= _ <-].
Qed.

(** The existence check answers [true] exactly on the keys that hold a value. *)
Lemma AssetExists_Ok_inv stub id b stub' :
  AssetExists id stub = (Ok b, stub') →
  stub' = stub ∧ b = bool_decide (world stub !! id ≠ None).
Proof.
  unfold AssetExists, mbind, Tx_bind, onErr, GetState, mret, Tx_ret.
  destruct (refuse stub _); [done|]. by intros [= <- <-].
Qed.

(** ** The range scan *)

Global Instance key_le_total : Total key_le.
Proof. intros x y. apply String.leb_total. Qed.

Lemma in_range_open kv : in_range "" "" kv = true.
Proof. unfold in_range. by destruct (kv.1). Qed.

(** The open-ended scan delivers every entry of the world state ... *)
Lemma range_scan_open_Permutation (w : gmap string bytes) :
  range_scan "" "" w ≡ₚ (λ kv, mkKV kv.1 kv.2) <$> map_to_list w.
Proof.
  unfold range_scan. apply fmap_Permutation.
  rewrite merge_sort_Permutation.
  rewrite List.forallb_filter_id; [done|].
  apply forallb_forall. intros kv _. apply in_range_open.
Qed.

Lemma range_scan_open_elem_of (w : gmap string bytes) key value :
  mkKV key value ∈ range_scan "" "" w ↔ w !! key = Some value.
Proof.
  rewrite range_scan_open_Permutation, list_elem_of_fmap.
  split.
  - intros ([k v] & [= -> ->] & H). by apply elem_of_map_to_list.
  - intros H. exists (key, value). split; [done|]. by apply elem_of_map_to_list.
Qed.

(** ... in the order of their keys. *)
Lemma range_scan_Sorted startKey endKey (w : gmap string bytes) :
  Sorted (λ e1 e2, String.leb (kvKey e1) (kvKey e2) = true)
         (range_scan startKey endKey w).
Proof.
  unfold range_scan.
  apply (Sorted_fmap _ key_le); [by intros [??] [??]|].
  apply (Sorted_merge_sort key_le).
Qed.

Section Properties.

Variable json_Marshal : Asset → result bytes.
Variable json_Unmarshal : bytes → result Asset.

Lemma ReadAsset_keeps stub id r stub' :
  ReadAsset json_Unmarshal id stub = (r, stub') → stub' = stub.
Proof.
  unfold ReadAsset, mbind, Tx_bind, onErr, GetState, liftR.
  destruct (refuse stub _); [by intros [= _ <-]|].
  destruct (world stub !! id); by intros [= _ <-].
Qed.

Lemma ReadAsset_run stub id :
  refuse stub (CallGetState id) = None →
  ReadAsset json_Unmarshal id stub =
    (match world stub !! id with
     | None => Err (NotFound id)
     | Some assetJSON => json_Unmarshal assetJSON
     end, stub).
Proof.
  intros H. unfold ReadAsset, mbind, Tx_bind, onErr. rewrite GetState_Ok by done.
  by destruct (world stub !! id).
Qed.

(** Reading succeeds exactly on stored assets. *)
Lemma ReadAsset_Ok_inv stub id asset stub' :
  ReadAsset json_Unmarshal id stub = (Ok asset, stub') →
  stub' = stub ∧ stored json_Unmarshal stub id asset.
Proof.
  unfold ReadAsset, mbind, Tx_bind, onErr, GetState, liftR, stored.
  destruct (refuse stub _); [done|].
  destruct (world stub !! id) as [assetJSON|]; [|done].
  intros [= H <-]. eauto.
Qed.

Lemma ReadAsset_stored stub id asset :
  refuse stub (CallGetState id) = None →
  stored json_Unmarshal stub id asset →
  ReadAsset json_Unmarshal id stub = (Ok asset, stub).
Proof.
  intros H (assetJSON & Hw & Hd). rewrite ReadAsset_run by done.
  by rewrite Hw, Hd.
Qed.

(** *** Encoding a record and writing it back (the tail of every writer) *)

Lemma write_back_Ok stub id asset assetJSON :
  json_Marshal asset = Ok assetJSON →
  refuse stub (CallPutState id assetJSON) = None →
  write_back json_Marshal id asset stub =
    (Ok tt, mkStub (<[id := assetJSON]> (world stub)) (refuse stub)).
Proof.
  intros Hm Hp. unfold write_back, mbind, Tx_bind, liftR. rewrite Hm.
  by apply PutState_Ok.
Qed.

Lemma write_back_Ok_inv stub id asset u stub' :
  write_back json_Marshal id asset stub = (Ok u, stub') →
  ∃ assetJSON, json_Marshal asset = Ok assetJSON ∧
               stub' = mkStub (<[id := assetJSON]> (world stub)) (refuse stub).
Proof.
  unfold write_back, mbind, Tx_bind, liftR.
  destruct (json_Marshal asset) as [assetJSON|]; [|done].
  intros H%PutState_Ok_inv. eauto.
Qed.

Lemma write_back_Err stub id asset err stub' :
  write_back json_Marshal id asset stub = (Err err, stub') → stub' = stub.
Proof.
  unfold write_back, mbind, Tx_bind, liftR.
  destruct (json_Marshal asset) as [assetJSON|].
  - apply PutState_Err.
  - by intros [= _ <-].
Qed.

(** *** What a successful writer did *)

Lemma CreateAsset_Ok_inv stub id description owner approvalOne approvalTwo registered u stub' :
  CreateAsset json_Marshal id description owner approvalOne approvalTwo registered stub
    = (Ok u, stub') →
  world stub !! id = None ∧
  ∃ assetJSON,
    json_Marshal (mkAsset id description owner approvalOne approvalTwo registered)
      = Ok assetJSON ∧
    stub' = mkStub (<[id := assetJSON]> (world stub)) (refuse stub).
Proof.
  unfold CreateAsset. intros (b & stub1 & [-> ->]%AssetExists_Ok_inv & H)%bind_Ok_inv.
  case_bool_decide as Hw; [done|].
  split; [by destruct (world stub !! id); [destruct Hw|] |].
  by apply write_back_Ok_inv in H.
Qed.

Lemma UpdateAsset_Ok_inv stub id description owner approvalOne approvalTwo registered u stub' :
  UpdateAsset json_Marshal id description owner approvalOne approvalTwo registered stub
    = (Ok u, stub') →
  world stub !! id ≠ None ∧
  ∃ assetJSON,
    json_Marshal (mkAsset id description owner approvalOne approvalTwo registered)
      = Ok assetJSON ∧
    stub' = mkStub (<[id := assetJSON]> (world stub)) (refuse stub).
Proof.
  unfold UpdateAsset. intros (b & stub1 & [-> ->]%AssetExists_Ok_inv & H)%bind_Ok_inv.
  case_bool_decide as Hw; [|done].
  split; [done|]. by apply write_back_Ok_inv in H.
Qed.

Lemma DeleteAsset_Ok_inv stub id u stub' :
  DeleteAsset id stub = (Ok u, stub') →
  world stub !! id ≠ None ∧
  stub' = mkStub (delete id (world stub)) (refuse stub).
Proof.
  unfold DeleteAsset. intros (b & stub1 & [-> ->]%AssetExists_Ok_inv & H)%bind_Ok_inv.
  case_bool_decide as Hw; [|done].
  split; [done|]. by apply DelState_Ok_inv in H.
Qed.

(** The three read-modify-write operations differ in the assignment only. *)
Lemma TransferAsset_modify id newOwner :
  TransferAsset json_Marshal json_Unmarshal id newOwner = modify json_Marshal json_Unmarshal (set_Owner newOwner) id.
Proof. done. Qed.

Lemma ApproveRequestOne_modify id :
  ApproveRequestOne json_Marshal json_Unmarshal id = modify json_Marshal json_Unmarshal (set_ApprovalOne 1) id.
Proof. done. Qed.

Lemma ApproveRequestTwo_modify id :
  ApproveRequestTwo json_Marshal json_Unmarshal id
    = modify json_Marshal json_Unmarshal
        (λ asset, set_Registered 1 (set_ApprovalTwo 1 asset)) id.
Proof. done. Qed.

Lemma modify_Ok_inv change stub id u stub' :
  modify json_Marshal json_Unmarshal change id stub = (Ok u, stub') →
  ∃ asset assetJSON,
    stored json_Unmarshal stub id asset ∧
    json_Marshal (change asset) = Ok assetJSON ∧
    stub' = mkStub (<[id := assetJSON]> (world stub)) (refuse stub).
Proof.
  unfold modify.
  intros (asset & stub1 & [-> Hs]%ReadAsset_Ok_inv & H)%bind_Ok_inv.
  apply write_back_Ok_inv in H as (assetJSON & Hm & ->). eauto.
Qed.

Lemma modify_Ok change stub id asset assetJSON :
  reliable stub →
  stored json_Unmarshal stub id asset →
  json_Marshal (change asset) = Ok assetJSON →
  modify json_Marshal json_Unmarshal change id stub =
    (Ok tt, mkStub (<[id := assetJSON]> (world stub)) (refuse stub)).
Proof.
  intros Hr Hs Hm. unfold modify.
  erewrite bind_Ok by (by apply ReadAsset_stored).
  by apply write_back_Ok.
Qed.

Lemma modify_Err change stub id err stub' :
  modify json_Marshal json_Unmarshal change id stub = (Err err, stub') → stub' = stub.
Proof.
  unfold modify. intros [H | (asset & stub1 & H1 & H2)]%bind_Err_inv.
  - by apply ReadAsset_keeps in H.
  - apply ReadAsset_keeps in H1 as ->. by apply write_back_Err in H2.
Qed.

Lemma modify_absent change stub id :
  refuse stub (CallGetState id) = None →
  world stub !! id = None →
  modify json_Marshal json_Unmarshal change id stub = (Err (NotFound id), stub).
Proof.
  intros Hr Hw. unfold modify. apply bind_Err.
  rewrite ReadAsset_run by done. by rewrite Hw.
Qed.

(** *** Failure leaves the stub alone *)

(** C10: a single-record operation that returns an error has written
    and deleted nothing: the stub it leaves is the stub it was given. *)
Theorem failed_invocation_writes_nothing inv stub err stub' :
  single_record inv = true →
  invoke json_Marshal json_Unmarshal inv stub = (Err err, stub') →
  stub' = stub.
Proof.
  destruct inv; try done; intros _; simpl.
  - unfold CreateAsset.
    intros [H | (b & stub1 & [-> ->]%AssetExists_Ok_inv & H)]%bind_Err_inv.
    + by apply AssetExists_keeps in H.
    + case_bool_decide; [by injection H as _ <- | by apply write_back_Err in H].
  - unfold UpdateAsset.
    intros [H | (b & stub1 & [-> ->]%AssetExists_Ok_inv & H)]%bind_Err_inv.
    + by apply AssetExists_keeps in H.
    + case_bool_decide; [by apply write_back_Err in H | by injection H as _ <-].
  - unfold DeleteAsset.
    intros [H | (b & stub1 & [-> ->]%AssetExists_Ok_inv & H)]%bind_Err_inv.
    + by apply AssetExists_keeps in H.
    + case_bool_decide; [by apply DelState_Err in H | by injection H as _ <-].
  - rewrite TransferAsset_modify. apply modify_Err.
  - rewrite ApproveRequestOne_modify. apply modify_Err.
  - rewrite ApproveRequestTwo_modify. apply modify_Err.
Qed.

(** *** Creation *)


(** C4: on a key that holds a value, CreateAsset fails with the
    already-exists error and leaves the stub, and so the record, as it
    was. *)
Theorem CreateAsset_existing stub id description owner
    approvalOne approvalTwo registered assetJSON :
  refuse stub (CallGetState id) = None →
  world stub !! id = Some assetJSON →
  CreateAsset json_Marshal id description owner
    approvalOne approvalTwo registered stub = (Err (AlreadyExists id), stub).
Proof.
  intros Hr Hw. unfold CreateAsset.
  erewrite bind_Ok by (by apply AssetExists_Ok).
  rewrite Hw. by rewrite bool_decide_true.
Qed.

(** *** Absent keys *)

Lemma AssetExists_never_NotFound stub id id' :
  (AssetExists id stub).1 ≠ Err (NotFound id').
Proof.
  unfold AssetExists, mbind, Tx_bind, onErr, GetState.
  destruct (refuse stub _); cbn; [|done]. by intros [=].
Qed.

(** C5: on a key that holds nothing, ReadAsset, UpdateAsset,
    DeleteAsset, TransferAsset and the two approvals fail with the
    not-found error; AssetExists answers false there, true once the
    asset is created and false again once it is deleted, and on no stub
    does it return the not-found error. *)
Theorem absent_id_NotFound stub id :
  reliable stub →
  world stub !! id = None →
  ReadAsset json_Unmarshal id stub = (Err (NotFound id), stub) ∧
  (∀ description owner approvalOne approvalTwo registered,
     UpdateAsset json_Marshal id description owner
       approvalOne approvalTwo registered stub = (Err (NotFound id), stub)) ∧
  DeleteAsset id stub = (Err (NotFound id), stub) ∧
  (∀ newOwner,
     TransferAsset json_Marshal json_Unmarshal id newOwner stub
       = (Err (NotFound id), stub)) ∧
  ApproveRequestOne json_Marshal json_Unmarshal id stub = (Err (NotFound id), stub) ∧
  ApproveRequestTwo json_Marshal json_Unmarshal id stub = (Err (NotFound id), stub) ∧
  AssetExists id stub = (Ok false, stub) ∧
  (∀ description owner approvalOne approvalTwo registered assetJSON,
     json_Marshal (mkAsset id description owner approvalOne approvalTwo registered)
       = Ok assetJSON →
     ∃ stub1,
       CreateAsset json_Marshal id description owner
         approvalOne approvalTwo registered stub = (Ok tt, stub1) ∧
       AssetExists id stub1 = (Ok true, stub1) ∧
       ∃ stub2,
         DeleteAsset id stub1 = (Ok tt, stub2) ∧
         AssetExists id stub2 = (Ok false, stub2) ∧
         world stub2 !! id = None) ∧
  (∀ stub0 id0 id1, (AssetExists id0 stub0).1 ≠ Err (NotFound id1)).
Proof.
  intros Hr Hw.
  assert (Hex : AssetExists id stub = (Ok false, stub)).
  { rewrite AssetExists_Ok by apply Hr. rewrite Hw.
    by rewrite bool_decide_false by (by intros []). }
  repeat split.
  - rewrite ReadAsset_run by apply Hr. by rewrite Hw.
  - intros. unfold UpdateAsset. by erewrite bind_Ok by exact Hex.
  - unfold DeleteAsset. by erewrite bind_Ok by exact Hex.
  - intros. rewrite TransferAsset_modify. by apply modify_absent.
  - rewrite ApproveRequestOne_modify. by apply modify_absent.
  - rewrite ApproveRequestTwo_modify. by apply modify_absent.
  - exact Hex.
  - intros description owner approvalOne approvalTwo registered assetJSON Hm.
    set (stub1 := mkStub (<[id := assetJSON]> (world stub)) (refuse stub)).
    exists stub1. split; [|split].
    + unfold CreateAsset. erewrite bind_Ok by exact Hex. by apply write_back_Ok.
    + rewrite AssetExists_Ok by apply Hr. simpl.
      by rewrite lookup_insert_eq, bool_decide_true.
    + exists (mkStub (delete id (world stub1)) (refuse stub1)). split; [|split].
      * unfold DeleteAsset. rewrite (bind_Ok _ _ stub1 true stub1).
        -- unfold negb, DelState. by rewrite (Hr : reliable stub1).
        -- rewrite AssetExists_Ok by apply Hr. simpl.
           by rewrite lookup_insert_eq, bool_decide_true.
      * rewrite AssetExists_Ok by apply Hr. simpl.
        rewrite lookup_delete_eq. by rewrite bool_decide_false by (by intros []).
      * simpl. apply lookup_delete_eq.
  - intros. apply AssetExists_never_NotFound.
Qed.

(** *** Read, assign, write back *)

Lemma modify_stored change stub id asset :
  reliable stub →
  stored json_Unmarshal stub id asset →
  lossless json_Marshal json_Unmarshal (change asset) →
  ∃ stub',
    modify json_Marshal json_Unmarshal change id stub = (Ok tt, stub') ∧
    stored json_Unmarshal stub' id (change asset) ∧
    reliable stub' ∧
    (∀ key, key ≠ id → world stub' !! key = world stub !! key) ∧
    (change (change asset) = change asset →
     modify json_Marshal json_Unmarshal change id stub' = (Ok tt, stub')).
Proof.
  intros Hr Hs (assetJSON & Hm & Hu).
  set (stub' := mkStub (<[id := assetJSON]> (world stub)) (refuse stub)).
  assert (Hs' : stored json_Unmarshal stub' id (change asset)).
  { exists assetJSON. simpl. by rewrite lookup_insert_eq. }
  exists stub'. split; [by apply (modify_Ok change stub id asset)|]. split; [done|].
  split; [done|]. split.
  - intros key Hne. simpl. by rewrite lookup_insert_ne.
  - intros Hfix. erewrite modify_Ok; [| done | exact Hs' | by rewrite Hfix].
    unfold stub'. simpl. by rewrite insert_insert_eq.
Qed.


(** C7: ApproveRequestOne on a stored asset succeeds and leaves under
    [id] a record with [ApprovalOne] 1 and the other five fields as
    before; applied once more it succeeds and leaves the same stub. *)
Theorem ApproveRequestOne_idempotent stub id asset :
  reliable stub →
  stored json_Unmarshal stub id asset →
  lossless json_Marshal json_Unmarshal (set_ApprovalOne 1 asset) →
  ∃ stub' asset',
    ApproveRequestOne json_Marshal json_Unmarshal id stub = (Ok tt, stub') ∧
    stored json_Unmarshal stub' id asset' ∧
    ApprovalOne asset' = 1 ∧
    ApprovalTwo asset' = ApprovalTwo asset ∧
    Registered asset' = Registered asset ∧
    ID asset' = ID asset ∧
    Description asset' = Description asset ∧
    Owner asset' = Owner asset ∧
    ApproveRequestOne json_Marshal json_Unmarshal id stub' = (Ok tt, stub').
Proof.
  intros Hr Hs Hl.
  destruct (modify_stored (set_ApprovalOne 1) stub id asset Hr Hs Hl)
    as (stub' & Hrun & Hs' & _ & _ & Hagain).
  exists stub', (set_ApprovalOne 1 asset).
  rewrite ApproveRequestOne_modify. repeat split; try done.
  by apply Hagain.
Qed.

(** C1: ApproveRequestTwo on a stored asset succeeds, whatever its
    [ApprovalOne], and leaves under [id] a record with [ApprovalTwo] 1
    and [Registered] 1 whose ID, description and owner (and
    [ApprovalOne]) are those it had before. *)
Theorem ApproveRequestTwo_registers stub id asset :
  reliable stub →
  stored json_Unmarshal stub id asset →
  lossless json_Marshal json_Unmarshal
    (set_Registered 1 (set_ApprovalTwo 1 asset)) →
  ∃ stub' asset',
    ApproveRequestTwo json_Marshal json_Unmarshal id stub = (Ok tt, stub') ∧
    stored json_Unmarshal stub' id asset' ∧
    ApprovalTwo asset' = 1 ∧
    Registered asset' = 1 ∧
    ID asset' = ID asset ∧
    Description asset' = Description asset ∧
    Owner asset' = Owner asset ∧
    ApprovalOne asset' = ApprovalOne asset.
Proof.
  intros Hr Hs Hl.
  destruct (modify_stored (λ a, set_Registered 1 (set_ApprovalTwo 1 a))
              stub id asset Hr Hs Hl) as (stub' & Hrun & Hs' & _).
  exists stub', (set_Registered 1 (set_ApprovalTwo 1 asset)).
  rewrite ApproveRequestTwo_modify. by repeat split.
Qed.

(** *** The bulk query *)

Lemma GetAllAssets_loop_keeps entries results stub r stub' :
  GetAllAssets_loop json_Unmarshal entries results stub = (r, stub') →
  stub' = stub.
Proof.
  revert results. induction entries as [|entry rest IH]; intros results; simpl.
  - by intros [= _ <-].
  - unfold mbind, Tx_bind, Next, liftR.
    destruct (refuse stub _); [by intros [= _ <-]|].
    destruct (json_Unmarshal _); [apply IH | by intros [= _ <-]].
Qed.

Lemma GetAllAssets_loop_Ok entries results stub :
  reliable stub →
  Forall (decodes json_Unmarshal) entries →
  ∃ more,
    GetAllAssets_loop json_Unmarshal entries results stub
      = (Ok (results ++ more), stub) ∧
    Forall2 (result_of json_Unmarshal) entries more.
Proof.
  intros Hr Hall. revert results.
  induction Hall as [|entry rest [asset Hd] _ IH]; intros results; simpl.
  - exists []. by rewrite app_nil_r.
  - unfold mbind, Tx_bind, Next, liftR. rewrite Hr, Hd.
    destruct (IH (results ++ [mkQueryResult (kvKey entry) asset]))
      as (more & Hrun & Hmore).
    exists (mkQueryResult (kvKey entry) asset :: more).
    rewrite Hrun, <- app_assoc. split; [done|].
    by constructor.
Qed.

Lemma GetAllAssets_loop_Err pre bad post err results stub :
  reliable stub →
  Forall (decodes json_Unmarshal) pre →
  json_Unmarshal (kvValue bad) = Err err →
  GetAllAssets_loop json_Unmarshal (pre ++ bad :: post) results stub
    = (Err err, stub).
Proof.
  intros Hr Hall Hbad. revert results.
  induction Hall as [|entry rest [asset Hd] _ IH]; intros results; simpl;
    unfold mbind, Tx_bind, Next, liftR; rewrite Hr.
  - by rewrite Hbad.
  - rewrite Hd. apply IH.
Qed.

(** C9: GetAllAssets scans every entry of the world state in key
    order; if an entry does not decode, the entries before it decoding,
    the call returns the decoding error of that entry and no list; if
    every entry decodes it returns, in scan order, the pair of each
    entry's key and decoded record. *)
Theorem GetAllAssets_all_or_nothing stub :
  reliable stub →
  let entries := range_scan "" "" (world stub) in
  (∀ key value, mkKV key value ∈ entries ↔ world stub !! key = Some value) ∧
  Sorted (λ e1 e2, String.leb (kvKey e1) (kvKey e2) = true) entries ∧
  (∀ pre bad post err,
     entries = pre ++ bad :: post →
     Forall (decodes json_Unmarshal) pre →
     json_Unmarshal (kvValue bad) = Err err →
     GetAllAssets json_Unmarshal stub = (Err err, stub)) ∧
  (Forall (decodes json_Unmarshal) entries →
   ∃ results,
     GetAllAssets json_Unmarshal stub = (Ok results, stub) ∧
     Forall2 (result_of json_Unmarshal) entries results).
Proof.
  intros Hr entries.
  assert (Hscan : GetStateByRange "" "" stub = (Ok entries, stub)).
  { unfold GetStateByRange. by rewrite Hr. }
  split; [apply range_scan_open_elem_of|].
  split; [apply range_scan_Sorted|]. split.
  - intros pre bad post err Heq Hpre Hbad. unfold GetAllAssets.
    erewrite bind_Ok by exact Hscan. rewrite Heq.
    by apply GetAllAssets_loop_Err.
  - intros Hall. unfold GetAllAssets. erewrite bind_Ok by exact Hscan.
    destruct (GetAllAssets_loop_Ok entries [] stub Hr Hall) as (more & Hrun & Hmore).
    by exists more.
Qed.

(** *** The seed *)

Lemma InitLedger_Ok_inv stub u stub' :
  InitLedger json_Marshal stub = (Ok u, stub') →
  ∃ asset1JSON asset2JSON,
    json_Marshal (mkAsset "asset1" "myAsset" "Org1" 0 0 0) = Ok asset1JSON ∧
    json_Marshal (mkAsset "asset2" "anotherAsset" "Org1" 0 0 0) = Ok asset2JSON ∧
    stub' = mkStub (<["asset2" := asset2JSON]>
                      (<["asset1" := asset1JSON]> (world stub))) (refuse stub).
Proof.
  unfold InitLedger, seed_assets, InitLedger_loop, mbind, Tx_bind, onErr, liftR,
    PutState, mret, Tx_ret. simpl.
  destruct (json_Marshal (mkAsset "asset1" _ _ _ _ _)) as [asset1JSON|]; [|done].
  destruct (refuse stub (CallPutState "asset1" _)); [done|].
  destruct (json_Marshal (mkAsset "asset2" _ _ _ _ _)) as [asset2JSON|]; [|done].
  simpl. destruct (refuse stub (CallPutState "asset2" _)); [done|].
  intros [= _ <-]. by exists asset1JSON, asset2JSON.
Qed.

Lemma InitLedger_Ok stub asset1JSON asset2JSON :
  reliable stub →
  json_Marshal (mkAsset "asset1" "myAsset" "Org1" 0 0 0) = Ok asset1JSON →
  json_Marshal (mkAsset "asset2" "anotherAsset" "Org1" 0 0 0) = Ok asset2JSON →
  InitLedger json_Marshal stub =
    (Ok tt, mkStub (<["asset2" := asset2JSON]>
                      (<["asset1" := asset1JSON]> (world stub))) (refuse stub)).
Proof.
  intros Hr H1 H2.
  unfold InitLedger, seed_assets, InitLedger_loop, mbind, Tx_bind, onErr, liftR,
    PutState, mret, Tx_ret. simpl.
  rewrite H1, Hr, H2. simpl. by rewrite Hr.
Qed.

(** C8: on an empty world state InitLedger succeeds, and GetAllAssets
    then returns exactly the pair for asset1 followed by the pair for
    asset2, with the seeded descriptions and owner and the three flags
    at 0. *)
Theorem InitLedger_then_GetAllAssets stub :
  reliable stub →
  world stub = ∅ →
  lossless json_Marshal json_Unmarshal (mkAsset "asset1" "myAsset" "Org1" 0 0 0) →
  lossless json_Marshal json_Unmarshal (mkAsset "asset2" "anotherAsset" "Org1" 0 0 0) →
  ∃ stub',
    InitLedger json_Marshal stub = (Ok tt, stub') ∧
    GetAllAssets json_Unmarshal stub' =
      (Ok [ mkQueryResult "asset1" (mkAsset "asset1" "myAsset" "Org1" 0 0 0);
            mkQueryResult "asset2" (mkAsset "asset2" "anotherAsset" "Org1" 0 0 0) ],
       stub').
Proof.
  intros Hr Hw (asset1JSON & Hm1 & Hu1) (asset2JSON & Hm2 & Hu2).
  eexists. split; [by apply InitLedger_Ok|].
  rewrite Hw.
  assert (Hscan : range_scan "" "" (<["asset2" := asset2JSON]>
                    (<["asset1" := asset1JSON]> (∅ : gmap string bytes)))
                  = [mkKV "asset1" asset1JSON; mkKV "asset2" asset2JSON]).
  { vm_compute. reflexivity. }
  unfold GetAllAssets, GetStateByRange, mbind, Tx_bind. simpl.
  rewrite Hr, Hscan. simpl.
  unfold mbind, Tx_bind, Next, liftR. simpl.
  repeat (first [rewrite Hr | rewrite Hu1 | rewrite Hu2]; simpl).
  reflexivity.
Qed.

(** *** The registered flag *)

Lemma stored_after_put w r id0 asset0 assetJSON id asset' :
  keeps_Registered json_Marshal json_Unmarshal →
  json_Marshal asset0 = Ok assetJSON →
  stored json_Unmarshal (mkStub (<[id0 := assetJSON]> w) r) id asset' →
  (id0 = id ∧ Registered asset' = Registered asset0) ∨
  (id0 ≠ id ∧ stored json_Unmarshal (mkStub w r) id asset').
Proof.
  intros Hk Hm (bs & Hw & Hd). simpl in Hw.
  destruct (decide (id0 = id)) as [->|Hne].
  - left. rewrite lookup_insert_eq in Hw. injection Hw as <-.
    split; [done|]. by apply (Hk _ _ _ Hm Hd).
  - right. rewrite lookup_insert_ne in Hw by done.
    split; [done|]. by exists bs.
Qed.

(** What a stored asset's flag is after an assignment that keeps it. *)
Lemma Registered_after_modify change stub stub' id0 id asset' :
  keeps_Registered json_Marshal json_Unmarshal →
  (∀ asset, Registered (change asset) = Registered asset) →
  modify json_Marshal json_Unmarshal change id0 stub = (Ok tt, stub') →
  stored json_Unmarshal stub' id asset' →
  ∃ asset, stored json_Unmarshal stub id asset ∧
           Registered asset' = Registered asset.
Proof.
  intros Hk Hch (asset & assetJSON & Hs & Hm & ->)%modify_Ok_inv Hs'.
  destruct (stored_after_put _ _ _ _ _ _ _ Hk Hm Hs') as [[<- HR]|[_ Hold]].
  - exists asset. by rewrite HR, Hch.
  - by exists asset'.
Qed.

(** C2, as the code has it: after a successful invocation the
    [Registered] flag of the asset stored under [id] is 1 if the
    invocation was the second approval of [id], the [registered]
    argument if it was a CreateAsset or UpdateAsset of [id], 0 if it was
    InitLedger and [id] is one of its seeds, and in every other case the
    flag of the asset that was stored under [id] before the call. *)
Theorem Registered_after_invocation inv stub stub' id asset' :
  keeps_Registered json_Marshal json_Unmarshal →
  invoke json_Marshal json_Unmarshal inv stub = (Ok tt, stub') →
  stored json_Unmarshal stub' id asset' →
  match Registered_written inv id with
  | Some registered => Registered asset' = registered
  | None => ∃ asset, stored json_Unmarshal stub id asset ∧
                     Registered asset' = Registered asset
  end.
Proof.
  intros Hk Hrun Hs'.
  destruct inv; simpl in Hrun |- *.
  - apply InitLedger_Ok_inv in Hrun as (b1 & b2 & Hm1 & Hm2 & ->).
    destruct (stored_after_put _ _ _ _ _ _ _ Hk Hm2 Hs') as [[<- HR]|[Hne2 Hs1]].
    { by rewrite decide_True by (simpl; repeat constructor). }
    destruct (stored_after_put _ _ _ _ _ _ _ Hk Hm1 Hs1) as [[<- HR]|[Hne1 Hs0]].
    { by rewrite decide_True by (simpl; repeat constructor). }
    rewrite decide_False; [by exists asset'|]. simpl.
    by intros [->|[->|[]%elem_of_nil]%elem_of_cons]%elem_of_cons.
  - apply CreateAsset_Ok_inv in Hrun as (_ & assetJSON & Hm & ->).
    destruct (stored_after_put _ _ _ _ _ _ _ Hk Hm Hs') as [[<- HR]|[Hne Hs0]].
    + by rewrite decide_True.
    + rewrite decide_False by done. by exists asset'.
  - unfold discard in Hrun.
    apply bind_Ok_inv in Hrun as (a & stub1 & [-> _]%ReadAsset_Ok_inv & [= <-]).
    by exists asset'.
  - apply UpdateAsset_Ok_inv in Hrun as (_ & assetJSON & Hm & ->).
    destruct (stored_after_put _ _ _ _ _ _ _ Hk Hm Hs') as [[<- HR]|[Hne Hs0]].
    + by rewrite decide_True.
    + rewrite decide_False by done. by exists asset'.
  - apply DeleteAsset_Ok_inv in Hrun as (_ & ->).
    destruct Hs' as (bs & Hw & Hd). simpl in Hw.
    apply lookup_delete_Some in Hw as [_ Hw]. exists asset'. split; [|done].
    by exists bs.
  - unfold discard in Hrun.
    apply bind_Ok_inv in Hrun as (b & stub1 & [-> _]%AssetExists_Ok_inv & [= <-]).
    by exists asset'.
  - rewrite TransferAsset_modify in Hrun.
    by apply (Registered_after_modify (set_Owner newOwner) _ _ _ _ _ Hk
                (λ _, eq_refl) Hrun).
  - rewrite ApproveRequestOne_modify in Hrun.
    by apply (Registered_after_modify (set_ApprovalOne 1) _ _ _ _ _ Hk
                (λ _, eq_refl) Hrun).
  - rewrite ApproveRequestTwo_modify in Hrun.
    apply modify_Ok_inv in Hrun as (asset & assetJSON & Hs & Hm & ->).
    destruct (stored_after_put _ _ _ _ _ _ _ Hk Hm Hs') as [[<- HR]|[Hne Hs0]].
    + by rewrite decide_True.
    + rewrite decide_False by done. by exists asset'.
  - unfold discard, GetAllAssets in Hrun.
    apply bind_Ok_inv in Hrun as (l & stub1 & Hrun & [= <-]).
    apply bind_Ok_inv in Hrun as (it & stub2 & Hscan & Hloop).
    apply GetAllAssets_loop_keeps in Hloop as ->.
    unfold GetStateByRange in Hscan.
    destruct (refuse stub _); [done|]. injection Hscan as _ <-.
    by exists asset'.
Qed.

End Properties.

(** * Further properties of the contract *)

Lemma stub_eta stub : mkStub (world stub) (refuse stub) = stub.
Proof. by destruct stub. Qed.

Lemma discard_keeps {A} (m : Tx A) stub r stub' :
  (∀ r0 s0, m stub = (r0, s0) → s0 = stub) →
  discard m stub = (r, stub') → stub' = stub.
Proof.
  intros Hm. unfold discard, mbind, Tx_bind, mret, Tx_ret.
  destruct (m stub) as [[a|err] s0] eqn:E; intros [= _ <-]; by eapply Hm.
Qed.

Lemma discard_Err {A} (m : Tx A) stub err stub' :
  m stub = (Err err, stub') → discard m stub = (Err err, stub').
Proof. intros H. unfold discard. by apply bind_Err. Qed.

Section Further.

Variable json_Marshal : Asset → result bytes.
Variable json_Unmarshal : bytes → result Asset.

Lemma GetAllAssets_keeps stub r stub' :
  GetAllAssets json_Unmarshal stub = (r, stub') → stub' = stub.
Proof.
  unfold GetAllAssets, mbind, Tx_bind, GetStateByRange.
  destruct (refuse stub _); [by intros [= _ <-]|].
  apply GetAllAssets_loop_keeps.
Qed.

Lemma CreateAsset_Err stub id description owner approvalOne approvalTwo registered
    err stub' :
  CreateAsset json_Marshal id description owner approvalOne approvalTwo registered
    stub = (Err err, stub') →
  stub' = stub.
Proof.
  unfold CreateAsset.
  intros [H | (b & stub1 & [-> ->]%AssetExists_Ok_inv & H)]%bind_Err_inv.
  - by apply AssetExists_keeps in H.
  - case_bool_decide; [by injection H as _ <- | by apply write_back_Err in H].
Qed.

Lemma UpdateAsset_Err stub id description owner approvalOne approvalTwo registered
    err stub' :
  UpdateAsset json_Marshal id description owner approvalOne approvalTwo registered
    stub = (Err err, stub') →
  stub' = stub.
Proof.
  unfold UpdateAsset.
  intros [H | (b & stub1 & [-> ->]%AssetExists_Ok_inv & H)]%bind_Err_inv.
  - by apply AssetExists_keeps in H.
  - case_bool_decide; [by apply write_back_Err in H | by injection H as _ <-].
Qed.

Lemma DeleteAsset_Err stub id err stub' :
  DeleteAsset id stub = (Err err, stub') → stub' = stub.
Proof.
  unfold DeleteAsset.
  intros [H | (b & stub1 & [-> ->]%AssetExists_Ok_inv & H)]%bind_Err_inv.
  - by apply AssetExists_keeps in H.
  - case_bool_decide; [by apply DelState_Err in H | by injection H as _ <-].
Qed.

Lemma AssetExists_present stub id assetJSON :
  refuse stub (CallGetState id) = None →
  world stub !! id = Some assetJSON →
  AssetExists id stub = (Ok true, stub).
Proof.
  intros Hr Hw. rewrite AssetExists_Ok by done. by rewrite Hw, bool_decide_true.
Qed.

(** What InitLedger leaves, whatever it returns: nothing written, the
    first seed written, or both. *)
Lemma InitLedger_inv stub r stub' :
  InitLedger json_Marshal stub = (r, stub') →
  refuse stub' = refuse stub ∧
  (world stub' = world stub ∨
   (∃ b1, json_Marshal (mkAsset "asset1" "myAsset" "Org1" 0 0 0) = Ok b1 ∧
          world stub' = <["asset1" := b1]> (world stub)) ∨
   (∃ b1 b2, json_Marshal (mkAsset "asset1" "myAsset" "Org1" 0 0 0) = Ok b1 ∧
             json_Marshal (mkAsset "asset2" "anotherAsset" "Org1" 0 0 0) = Ok b2 ∧
             world stub' = <["asset2" := b2]> (<["asset1" := b1]> (world stub)))).
Proof.
  unfold InitLedger, seed_assets, InitLedger_loop, mbind, Tx_bind, onErr, liftR,
    PutState, mret, Tx_ret. simpl.
  destruct (json_Marshal (mkAsset "asset1" _ _ _ _ _)) as [b1|] eqn:E1;
    [|intros [= _ <-]; split; [done|by left]].
  destruct (refuse stub (CallPutState "asset1" _));
    [intros [= _ <-]; split; [done|by left]|].
  destruct (json_Marshal (mkAsset "asset2" _ _ _ _ _)) as [b2|] eqn:E2;
    [|intros [= _ <-]; split; [done|right; left; by exists b1]].
  simpl. destruct (refuse stub (CallPutState "asset2" _)); intros [= _ <-].
  - split; [done|]. right. left. by exists b1.
  - split; [done|]. right. right. by exists b1, b2.
Qed.

(** ** Overwriting and deleting *)

(** X1: UpdateAsset on a key that holds a value, whatever the value,
    succeeds; ReadAsset then returns the record made of the arguments,
    and the other keys keep their values. *)
Theorem UpdateAsset_overwrites stub id description owner
    approvalOne approvalTwo registered old :
  reliable stub →
  world stub !! id = Some old →
  lossless json_Marshal json_Unmarshal
    (mkAsset id description owner approvalOne approvalTwo registered) →
  ∃ stub',
    UpdateAsset json_Marshal id description owner
      approvalOne approvalTwo registered stub = (Ok tt, stub') ∧
    ReadAsset json_Unmarshal id stub' =
      (Ok (mkAsset id description owner approvalOne approvalTwo registered), stub') ∧
    (∀ key, key ≠ id → world stub' !! key = world stub !! key).
Proof.
  intros Hr Hw (assetJSON & Hm & Hu).
  exists (mkStub (<[id := assetJSON]> (world stub)) (refuse stub)).
  split; [|split].
  - unfold UpdateAsset.
    erewrite bind_Ok by (by eapply AssetExists_present). simpl.
    by apply write_back_Ok.
  - apply ReadAsset_stored; [apply Hr|].
    exists assetJSON. simpl. by rewrite lookup_insert_eq.
  - intros key Hne. simpl. by rewrite lookup_insert_ne.
Qed.

(** X2: DeleteAsset on a key that holds a value, whatever the value,
    succeeds and removes the key only: ReadAsset and a second DeleteAsset
    then fail with the not-found error. *)
Theorem DeleteAsset_removes stub id old :
  reliable stub →
  world stub !! id = Some old →
  ∃ stub',
    DeleteAsset id stub = (Ok tt, stub') ∧
    world stub' !! id = None ∧
    (∀ key, key ≠ id → world stub' !! key = world stub !! key) ∧
    ReadAsset json_Unmarshal id stub' = (Err (NotFound id), stub') ∧
    DeleteAsset id stub' = (Err (NotFound id), stub').
Proof.
  intros Hr Hw.
  set (stub' := mkStub (delete id (world stub)) (refuse stub)).
  assert (Hw' : world stub' !! id = None) by apply lookup_delete_eq.
  exists stub'. split; [|split; [done|split; [|split]]].
  - unfold DeleteAsset.
    erewrite bind_Ok by (by eapply AssetExists_present). simpl.
    unfold DelState. by rewrite Hr.
  - intros key Hne. simpl. by rewrite lookup_delete_ne.
  - rewrite ReadAsset_run by apply Hr. by rewrite Hw'.
  - unfold DeleteAsset. rewrite (bind_Ok _ _ stub' false stub'); [done|].
    rewrite AssetExists_Ok by apply Hr. rewrite Hw'.
    by rewrite bool_decide_false by (by intros []).
Qed.

(** X3: CreateAsset on a free key followed by DeleteAsset gives back the
    stub the pair started from, whether or not the record decodes. *)
Theorem CreateAsset_then_DeleteAsset stub id description owner
    approvalOne approvalTwo registered assetJSON :
  reliable stub →
  world stub !! id = None →
  json_Marshal (mkAsset id description owner approvalOne approvalTwo registered)
    = Ok assetJSON →
  ∃ stub',
    CreateAsset json_Marshal id description owner
      approvalOne approvalTwo registered stub = (Ok tt, stub') ∧
    DeleteAsset id stub' = (Ok tt, stub).
Proof.
  intros Hr Hw Hm.
  exists (mkStub (<[id := assetJSON]> (world stub)) (refuse stub)). split.
  - unfold CreateAsset. erewrite bind_Ok by (by apply AssetExists_Ok).
    rewrite Hw, bool_decide_false by (by intros []). by apply write_back_Ok.
  - unfold DeleteAsset.
    erewrite bind_Ok
      by (eapply AssetExists_present; [apply Hr | apply lookup_insert_eq]).
    simpl. unfold DelState. simpl. rewrite Hr. simpl.
    rewrite delete_insert_eq, delete_id by done. by rewrite stub_eta.
Qed.

(** ** The seed *)

(** X4: on any world state InitLedger puts its two records over whatever
    asset1 and asset2 held and leaves the other keys; run again it
    changes nothing. *)
Theorem InitLedger_overwrites stub :
  reliable stub →
  lossless json_Marshal json_Unmarshal (mkAsset "asset1" "myAsset" "Org1" 0 0 0) →
  lossless json_Marshal json_Unmarshal (mkAsset "asset2" "anotherAsset" "Org1" 0 0 0) →
  ∃ stub',
    InitLedger json_Marshal stub = (Ok tt, stub') ∧
    stored json_Unmarshal stub' "asset1" (mkAsset "asset1" "myAsset" "Org1" 0 0 0) ∧
    stored json_Unmarshal stub' "asset2"
      (mkAsset "asset2" "anotherAsset" "Org1" 0 0 0) ∧
    (∀ key, key ≠ "asset1" → key ≠ "asset2" →
       world stub' !! key = world stub !! key) ∧
    InitLedger json_Marshal stub' = (Ok tt, stub').
Proof.
  intros Hr (b1 & Hm1 & Hu1) (b2 & Hm2 & Hu2).
  exists (mkStub (<["asset2" := b2]> (<["asset1" := b1]> (world stub))) (refuse stub)).
  split; [by apply InitLedger_Ok|]. split; [|split; [|split]].
  - exists b1. simpl. by rewrite lookup_insert_ne, lookup_insert_eq.
  - exists b2. simpl. by rewrite lookup_insert_eq.
  - intros key H1 H2. simpl. by rewrite !lookup_insert_ne.
  - erewrite InitLedger_Ok by done. simpl. f_equal. f_equal.
    apply map_eq. intros key.
    destruct (decide (key = "asset2")) as [->|H2];
      [by rewrite !lookup_insert_eq|].
    destruct (decide (key = "asset1")) as [->|H1].
    + by rewrite lookup_insert_ne, lookup_insert_eq, lookup_insert_ne,
        lookup_insert_eq.
    + by rewrite !lookup_insert_ne.
Qed.

(** X5: InitLedger does not roll back: when the write of asset2 is
    refused it returns the put error with the platform's text, and the
    record of asset1 stays written. *)
Theorem InitLedger_no_rollback stub b1 b2 err :
  json_Marshal (mkAsset "asset1" "myAsset" "Org1" 0 0 0) = Ok b1 →
  json_Marshal (mkAsset "asset2" "anotherAsset" "Org1" 0 0 0) = Ok b2 →
  refuse stub (CallPutState "asset1" b1) = None →
  refuse stub (CallPutState "asset2" b2) = Some err →
  InitLedger json_Marshal stub =
    (Err (PutFailed err), mkStub (<["asset1" := b1]> (world stub)) (refuse stub)).
Proof.
  intros Hm1 Hm2 Hp1 Hp2.
  unfold InitLedger, seed_assets, InitLedger_loop, mbind, Tx_bind, onErr, liftR,
    PutState, mret, Tx_ret. simpl.
  rewrite Hm1, Hp1, Hm2. simpl. by rewrite Hp2.
Qed.

(** ** Readers and refused reads *)

(** X6: ReadAsset, AssetExists and GetAllAssets write nothing: whatever
    they return, on whatever stub, the stub is as it was. *)
Theorem readers_keep_stub inv stub r stub' :
  reads_only inv = true →
  invoke json_Marshal json_Unmarshal inv stub = (r, stub') →
  stub' = stub.
Proof.
  destruct inv; try done; intros _; simpl; apply discard_keeps.
  - intros r0 s0. apply ReadAsset_keeps.
  - intros r0 s0. apply AssetExists_keeps.
  - intros r0 s0. apply GetAllAssets_keeps.
Qed.

Lemma AssetExists_refused stub id err :
  refuse stub (CallGetState id) = Some err →
  AssetExists id stub = (Err (ReadFailed err), stub).
Proof.
  intros H. unfold AssetExists, mbind, Tx_bind, onErr, GetState. by rewrite H.
Qed.

Lemma ReadAsset_refused stub id err :
  refuse stub (CallGetState id) = Some err →
  ReadAsset json_Unmarshal id stub = (Err (ReadFailed err), stub).
Proof.
  intros H. unfold ReadAsset, mbind, Tx_bind, onErr, GetState. by rewrite H.
Qed.

(** X7: when the platform refuses the read of the key an invocation
    names, the invocation returns the read failure with the platform's
    text and leaves the stub; this holds for the eight operations that
    name a key. *)
Theorem refused_read_fails inv stub id err :
  target inv = Some id →
  refuse stub (CallGetState id) = Some err →
  invoke json_Marshal json_Unmarshal inv stub = (Err (ReadFailed err), stub).
Proof.
  intros Ht Hr.
  pose proof (AssetExists_refused stub id err Hr) as Hex.
  pose proof (ReadAsset_refused stub id err Hr) as Hrd.
  destruct inv; try done; injection Ht as ->; simpl.
  - unfold CreateAsset. by apply bind_Err.
  - by apply discard_Err.
  - unfold UpdateAsset. by apply bind_Err.
  - unfold DeleteAsset. by apply bind_Err.
  - by apply discard_Err.
  - unfold TransferAsset. by apply bind_Err.
  - unfold ApproveRequestOne. by apply bind_Err.
  - unfold ApproveRequestTwo. by apply bind_Err.
Qed.

(** ** Records that do not decode *)

(** X8: on a key whose value does not decode, AssetExists answers true,
    and ReadAsset, TransferAsset and the two approvals return the
    decoding error and leave the stub (UpdateAsset and DeleteAsset, X1 and
    X2, still go through there). *)
Theorem undecodable_record stub id assetJSON err :
  refuse stub (CallGetState id) = None →
  world stub !! id = Some assetJSON →
  json_Unmarshal assetJSON = Err err →
  AssetExists id stub = (Ok true, stub) ∧
  ReadAsset json_Unmarshal id stub = (Err err, stub) ∧
  (∀ newOwner,
     TransferAsset json_Marshal json_Unmarshal id newOwner stub = (Err err, stub)) ∧
  ApproveRequestOne json_Marshal json_Unmarshal id stub = (Err err, stub) ∧
  ApproveRequestTwo json_Marshal json_Unmarshal id stub = (Err err, stub).
Proof.
  intros Hr Hw Hd.
  assert (Hread : ReadAsset json_Unmarshal id stub = (Err err, stub)).
  { rewrite ReadAsset_run by done. by rewrite Hw, Hd. }
  split; [by eapply AssetExists_present|]. split; [done|].
  split; [intros newOwner; unfold TransferAsset; by apply bind_Err|].
  split; [unfold ApproveRequestOne | unfold ApproveRequestTwo]; by apply bind_Err.
Qed.

(** ** Composing the read-modify-write operations *)

Lemma modify_then_modify f g stub id asset bs1 bs2 :
  reliable stub →
  stored json_Unmarshal stub id asset →
  json_Marshal (f asset) = Ok bs1 →
  json_Unmarshal bs1 = Ok (f asset) →
  json_Marshal (g (f asset)) = Ok bs2 →
  modify json_Marshal json_Unmarshal f id stub
    = (Ok tt, mkStub (<[id := bs1]> (world stub)) (refuse stub)) ∧
  modify json_Marshal json_Unmarshal g id
      (mkStub (<[id := bs1]> (world stub)) (refuse stub))
    = (Ok tt, mkStub (<[id := bs2]> (world stub)) (refuse stub)).
Proof.
  intros Hr Hs Hm1 Hu1 Hm2. split; [by apply (modify_Ok _ _ f stub id asset)|].
  erewrite (modify_Ok _ _ g _ id (f asset) bs2); [| done | | done].
  - simpl. by rewrite insert_insert_eq.
  - exists bs1. simpl. by rewrite lookup_insert_eq.
Qed.

(** X9: the second approval is idempotent: applied again to the stub it
    left, it succeeds and leaves that stub. *)
Theorem ApproveRequestTwo_idempotent stub id asset :
  reliable stub →
  stored json_Unmarshal stub id asset →
  lossless json_Marshal json_Unmarshal
    (set_Registered 1 (set_ApprovalTwo 1 asset)) →
  ∃ stub',
    ApproveRequestTwo json_Marshal json_Unmarshal id stub = (Ok tt, stub') ∧
    ApproveRequestTwo json_Marshal json_Unmarshal id stub' = (Ok tt, stub').
Proof.
  intros Hr Hs (bs & Hm & Hu).
  destruct (modify_then_modify
              (λ a, set_Registered 1 (set_ApprovalTwo 1 a))
              (λ a, set_Registered 1 (set_ApprovalTwo 1 a))
              stub id asset bs bs Hr Hs Hm Hu Hm) as [H1 H2].
  rewrite ApproveRequestTwo_modify. eauto.
Qed.

(** X10: the two approvals commute: first then second and second then
    first succeed and leave the same stub, whose record under [id] has the
    three flags at 1 and the ID, description and owner it had. *)
Theorem approvals_commute stub id asset :
  reliable stub →
  stored json_Unmarshal stub id asset →
  lossless json_Marshal json_Unmarshal (set_ApprovalOne 1 asset) →
  lossless json_Marshal json_Unmarshal
    (set_Registered 1 (set_ApprovalTwo 1 asset)) →
  lossless json_Marshal json_Unmarshal
    (mkAsset (ID asset) (Description asset) (Owner asset) 1 1 1) →
  ∃ stub1 stub2 stub12,
    ApproveRequestOne json_Marshal json_Unmarshal id stub = (Ok tt, stub1) ∧
    ApproveRequestTwo json_Marshal json_Unmarshal id stub1 = (Ok tt, stub12) ∧
    ApproveRequestTwo json_Marshal json_Unmarshal id stub = (Ok tt, stub2) ∧
    ApproveRequestOne json_Marshal json_Unmarshal id stub2 = (Ok tt, stub12) ∧
    stored json_Unmarshal stub12 id
      (mkAsset (ID asset) (Description asset) (Owner asset) 1 1 1).
Proof.
  intros Hr Hs (b1 & Hm1 & Hu1) (b2 & Hm2 & Hu2) (b12 & Hm12 & Hu12).
  destruct (modify_then_modify (set_ApprovalOne 1)
              (λ a, set_Registered 1 (set_ApprovalTwo 1 a))
              stub id asset b1 b12 Hr Hs Hm1 Hu1 Hm12) as [H1 H12].
  destruct (modify_then_modify (λ a, set_Registered 1 (set_ApprovalTwo 1 a))
              (set_ApprovalOne 1)
              stub id asset b2 b12 Hr Hs Hm2 Hu2 Hm12) as [H2 H21].
  rewrite ApproveRequestOne_modify, ApproveRequestTwo_modify.
  do 3 eexists. split; [exact H1|]. split; [exact H12|].
  split; [exact H2|]. split; [exact H21|].
  exists b12. simpl. by rewrite lookup_insert_eq.
Qed.



(** ** What an invocation may touch *)

(** X13: whatever it returns, an invocation leaves every key outside
    [touched] with the value it had: a writer changes at most the key it
    names, InitLedger at most asset1 and asset2, a reader nothing. *)
Theorem invocation_touches_only inv stub r stub' key :
  invoke json_Marshal json_Unmarshal inv stub = (r, stub') →
  key ∉ touched inv →
  world stub' !! key = world stub !! key.
Proof.
  assert (Hput : ∀ id0 bs, key ∉ [id0] →
            world (mkStub (<[id0 := bs]> (world stub)) (refuse stub)) !! key
              = world stub !! key).
  { intros id0 bs Hk. simpl. apply lookup_insert_ne. set_solver. }
  assert (Hmod : ∀ change id0, key ∉ [id0] →
            modify json_Marshal json_Unmarshal change id0 stub = (r, stub') →
            world stub' !! key = world stub !! key).
  { intros change id0 Hk Hrun. destruct r as [u|err].
    - apply modify_Ok_inv in Hrun as (a & bs & _ & _ & ->). by apply Hput.
    - by apply modify_Err in Hrun as ->. }
  destruct inv; simpl; intros Hrun Hk.
  - apply InitLedger_inv in Hrun
      as [_ [-> | [(b1 & _ & ->) | (b1 & b2 & _ & _ & ->)]]]; [done| |].
    + apply lookup_insert_ne. set_solver.
    + rewrite !lookup_insert_ne; [done| |]; set_solver.
  - destruct r as [u|err].
    + apply CreateAsset_Ok_inv in Hrun as (_ & bs & _ & ->). by apply Hput.
    + by apply CreateAsset_Err in Hrun as ->.
  - apply discard_keeps in Hrun as ->; [done|].
    intros r0 s0. apply ReadAsset_keeps.
  - destruct r as [u|err].
    + apply UpdateAsset_Ok_inv in Hrun as (_ & bs & _ & ->). by apply Hput.
    + by apply UpdateAsset_Err in Hrun as ->.
  - destruct r as [u|err].
    + apply DeleteAsset_Ok_inv in Hrun as (_ & ->). simpl.
      apply lookup_delete_ne. set_solver.
    + by apply DeleteAsset_Err in Hrun as ->.
  - apply discard_keeps in Hrun as ->; [done|].
    intros r0 s0. apply AssetExists_keeps.
  - rewrite TransferAsset_modify in Hrun. by eapply Hmod.
  - rewrite ApproveRequestOne_modify in Hrun. by eapply Hmod.
  - rewrite ApproveRequestTwo_modify in Hrun. by eapply Hmod.
  - apply discard_keeps in Hrun as ->; [done|].
    intros r0 s0. apply GetAllAssets_keeps.
Qed.

(** ** Keys and IDs *)




(** ** Registration and the second approval *)

Lemma tracks_put w r0 id0 asset0 assetJSON :
  keeps_Registered json_Marshal json_Unmarshal →
  keeps_ApprovalTwo json_Marshal json_Unmarshal →
  tracks_second_approval json_Unmarshal (mkStub w r0) →
  json_Marshal asset0 = Ok assetJSON →
  Registered asset0 = ApprovalTwo asset0 →
  tracks_second_approval json_Unmarshal (mkStub (<[id0 := assetJSON]> w) r0).
Proof.
  intros HkR HkA Htr Hm Heq key asset (bs & Hw & Hd). simpl in Hw.
  destruct (decide (id0 = key)) as [->|Hne].
  - rewrite lookup_insert_eq in Hw. injection Hw as <-.
    by rewrite (HkR _ _ _ Hm Hd), (HkA _ _ _ Hm Hd).
  - rewrite lookup_insert_ne in Hw by done. apply (Htr key). by exists bs.
Qed.

(** X16: if every stored asset has [Registered] equal to [ApprovalTwo],
    the same holds after any invocation, whatever it returns, as long as
    a CreateAsset or UpdateAsset is given equal [registered] and
    [approvalTwo]: the second approval sets the two flags together and no
    other operation sets one of them. *)
Theorem tracks_second_approval_preserved inv stub r stub' :
  keeps_Registered json_Marshal json_Unmarshal →
  keeps_ApprovalTwo json_Marshal json_Unmarshal →
  tracks_second_approval json_Unmarshal stub →
  paired_flags inv →
  invoke json_Marshal json_Unmarshal inv stub = (r, stub') →
  tracks_second_approval json_Unmarshal stub'.
Proof.
  intros HkR HkA Htr.
  assert (Htr0 : tracks_second_approval json_Unmarshal
                   (mkStub (world stub) (refuse stub))).
  { intros key a Ha. by apply (Htr key). }
  assert (Hmod : ∀ change id0,
            (∀ asset, Registered asset = ApprovalTwo asset →
                      Registered (change asset) = ApprovalTwo (change asset)) →
            modify json_Marshal json_Unmarshal change id0 stub = (r, stub') →
            tracks_second_approval json_Unmarshal stub').
  { intros change id0 Hch Hrun. destruct r as [u|err].
    - apply modify_Ok_inv in Hrun as (asset & bs & Hs & Hm & ->).
      apply (tracks_put _ _ _ (change asset)); [done..|].
      apply Hch. by apply (Htr id0).
    - by apply modify_Err in Hrun as ->. }
  destruct inv; simpl; intros Hpair Hrun.
  - apply InitLedger_inv in Hrun
      as [Hrf [Hw | [(b1 & Hm1 & Hw) | (b1 & b2 & Hm1 & Hm2 & Hw)]]];
      destruct stub' as [w' r']; simpl in Hw, Hrf; subst w' r'.
    + done.
    + by apply (tracks_put _ _ _ (mkAsset "asset1" "myAsset" "Org1" 0 0 0)).
    + apply (tracks_put _ _ _ (mkAsset "asset2" "anotherAsset" "Org1" 0 0 0));
        [done|done| |done|done].
      by apply (tracks_put _ _ _ (mkAsset "asset1" "myAsset" "Org1" 0 0 0)).
  - destruct r as [u|err].
    + apply CreateAsset_Ok_inv in Hrun as (_ & bs & Hm & ->).
      by apply (tracks_put _ _ _ _ _ HkR HkA Htr0 Hm).
    + by apply CreateAsset_Err in Hrun as ->.
  - apply discard_keeps in Hrun as ->; [done|].
    intros r0 s0. apply ReadAsset_keeps.
  - destruct r as [u|err].
    + apply UpdateAsset_Ok_inv in Hrun as (_ & bs & Hm & ->).
      by apply (tracks_put _ _ _ _ _ HkR HkA Htr0 Hm).
    + by apply UpdateAsset_Err in Hrun as ->.
  - destruct r as [u|err].
    + apply DeleteAsset_Ok_inv in Hrun as (_ & ->).
      intros key a (bs & Hw & Hd). simpl in Hw.
      apply lookup_delete_Some in Hw as [_ Hw]. apply (Htr key). by exists bs.
    + by apply DeleteAsset_Err in Hrun as ->.
  - apply discard_keeps in Hrun as ->; [done|].
    intros r0 s0. apply AssetExists_keeps.
  - rewrite TransferAsset_modify in Hrun.
    exact (Hmod (set_Owner newOwner) id (λ _ H, H) Hrun).
  - rewrite ApproveRequestOne_modify in Hrun.
    exact (Hmod (set_ApprovalOne 1) id (λ _ H, H) Hrun).
  - rewrite ApproveRequestTwo_modify in Hrun.
    exact (Hmod (λ a, set_Registered 1 (set_ApprovalTwo 1 a)) id
             (λ _ _, eq_refl) Hrun).
  - apply discard_keeps in Hrun as ->; [done|].
    intros r0 s0. apply GetAllAssets_keeps.
Qed.

(** ** A list from GetAllAssets is complete *)

Lemma GetAllAssets_loop_Ok_inv entries results stub out stub' :
  GetAllAssets_loop json_Unmarshal entries results stub = (Ok out, stub') →
  ∃ more, out = results ++ more ∧
          Forall2 (result_of json_Unmarshal) entries more.
Proof.
  revert results. induction entries as [|entry rest IH]; intros results; simpl.
  - intros [= <- _]. exists []. by rewrite app_nil_r.
  - unfold mbind, Tx_bind, Next, liftR.
    destruct (refuse stub _); [done|].
    destruct (json_Unmarshal (kvValue entry)) as [asset|] eqn:Hd; [|done].
    intros (more & -> & Hmore)%IH.
    exists (mkQueryResult (kvKey entry) asset :: more).
    rewrite <- app_assoc. split; [done|]. by constructor.
Qed.

Lemma result_of_keys entries results :
  Forall2 (result_of json_Unmarshal) entries results →
  Key <$> results = kvKey <$> entries.
Proof.
  induction 1 as [|e q ?? [Hkey _] _ IH]; [done|].
  by rewrite !fmap_cons, Hkey, IH.
Qed.

(** X15: a list returned by GetAllAssets, on whatever stub, has one pair
    for each key of the world state and no other: a pair is in it exactly
    when its record is the asset stored under its key, and the keys come
    in bytewise order. On the empty world state the list is empty. *)
Theorem GetAllAssets_Ok_complete stub results stub' :
  GetAllAssets json_Unmarshal stub = (Ok results, stub') →
  length results = size (world stub) ∧
  (∀ key asset,
     mkQueryResult key asset ∈ results ↔ stored json_Unmarshal stub key asset) ∧
  Sorted (λ key1 key2, String.leb key1 key2 = true) (Key <$> results) ∧
  (world stub = ∅ → results = []).
Proof.
  unfold GetAllAssets. intros (entries & stub1 & Hscan & Hloop)%bind_Ok_inv.
  unfold GetStateByRange in Hscan. destruct (refuse stub _); [done|].
  injection Hscan as <- <-.
  apply GetAllAssets_loop_Ok_inv in Hloop as (more & -> & Hall).
  rewrite app_nil_l.
  set (entries := range_scan "" "" (world stub)) in *.
  assert (Hlen : length more = size (world stub)).
  { rewrite <- (Forall2_length _ _ _ Hall). unfold entries.
    rewrite range_scan_open_Permutation, length_fmap.
    apply length_map_to_list. }
  split; [done|]. split; [|split].
  - intros key asset. split.
    + intros Hin. apply list_elem_of_lookup in Hin as [i Hi].
      destruct (Forall2_lookup_r _ _ _ _ _ Hall Hi) as ([k v] & He & Hkey & Hd).
      simpl in Hkey, Hd. subst k.
      exists v. split; [|done].
      apply range_scan_open_elem_of. by eapply list_elem_of_lookup_2.
    + intros (bs & Hw & Hd).
      apply range_scan_open_elem_of, list_elem_of_lookup in Hw as [i Hi].
      destruct (Forall2_lookup_l _ _ _ _ _ Hall Hi) as ([k a] & Hq & Hkey & Hd').
      simpl in Hkey, Hd'. subst k. rewrite Hd in Hd'. injection Hd' as <-.
      by eapply list_elem_of_lookup_2.
  - rewrite (result_of_keys _ _ Hall).
    apply (Sorted_fmap _ (λ e1 e2, String.leb (kvKey e1) (kvKey e2) = true));
      [done|]. apply range_scan_Sorted.
  - intros Hw. rewrite Hw, map_size_empty in Hlen. by destruct more.
Qed.

End Further.

(** ** The flat JSON codec loses nothing *)

Lemma FlatJSON_get_escaped_put s rest :
  FlatJSON.get_escaped (FlatJSON.put_escaped s (String FlatJSON.dquote rest))
    = Some (s, rest).
Proof.
  induction s as [|c s IH]; simpl.
  - done.
  - destruct (FlatJSON.needs_escape c) eqn:E; simpl.
    + by rewrite E, IH.
    + unfold FlatJSON.needs_escape in E. apply orb_false_iff in E as [-> ->].
      by rewrite IH.
Qed.

Lemma FlatJSON_get_string_put s rest :
  FlatJSON.get_string (FlatJSON.put_string s rest) = Some (s, rest).
Proof. unfold FlatJSON.get_string. simpl. apply FlatJSON_get_escaped_put. Qed.

Lemma FlatJSON_get_label_put name rest :
  FlatJSON.get_label name (FlatJSON.put_label name rest) = Some rest.
Proof.
  unfold FlatJSON.get_label, FlatJSON.put_label.
  rewrite FlatJSON_get_string_put. simpl. by rewrite String.eqb_refl.
Qed.

Lemma FlatJSON_span_num_end rest :
  FlatJSON.ends_number rest → FlatJSON.span_num rest = (EmptyString, rest).
Proof. destruct rest as [|c rest]; simpl; [done|]. by intros ->. Qed.

Lemma FlatJSON_span_num_uint d rest :
  FlatJSON.ends_number rest →
  FlatJSON.span_num (NilEmpty.string_of_uint d +:+ rest)
    = (NilEmpty.string_of_uint d, rest).
Proof.
  intros Hrest. induction d; simpl; try by rewrite IHd.
  by apply FlatJSON_span_num_end.
Qed.

Lemma FlatJSON_span_num_itoa z rest :
  FlatJSON.ends_number rest →
  FlatJSON.span_num (FlatJSON.itoa z +:+ rest) = (FlatJSON.itoa z, rest).
Proof.
  intros Hrest. unfold FlatJSON.itoa.
  assert (Hu : ∀ d, FlatJSON.span_num (NilZero.string_of_uint d +:+ rest)
                    = (NilZero.string_of_uint d, rest)).
  { intros d. pose proof (FlatJSON_span_num_uint d rest Hrest) as H.
    destruct d; try exact H.
    simpl. by rewrite FlatJSON_span_num_end. }
  destruct (Z.to_int z) as [d|d]; simpl; [apply Hu|]. by rewrite Hu.
Qed.

Lemma FlatJSON_get_int_put z rest :
  FlatJSON.ends_number rest →
  FlatJSON.get_int (FlatJSON.put_int z rest) = Some (z, rest).
Proof.
  intros Hrest. unfold FlatJSON.get_int, FlatJSON.put_int.
  rewrite FlatJSON_span_num_itoa by done. unfold FlatJSON.itoa.
  rewrite NilZero.isi.
  - simpl. by rewrite DecimalZ.of_to.
  - destruct z; simpl; [done| |done].
    intros [= H]. by apply DecimalPos.Unsigned.to_uint_nonnil in H.
  - destruct z; simpl; [done|done|].
    intros [= H]. by apply DecimalPos.Unsigned.to_uint_nonnil in H.
Qed.

Lemma FlatJSON_decode_encode asset :
  FlatJSON.decode (FlatJSON.encode asset) = Some asset.
Proof.
  destruct asset as [id description owner approvalOne approvalTwo registered].
  unfold FlatJSON.decode, FlatJSON.encode. simpl.
  repeat (first [ rewrite FlatJSON_get_label_put
                | rewrite FlatJSON_get_string_put
                | rewrite FlatJSON_get_int_put by done ]; simpl).
  done.
Qed.

Lemma FlatJSON_lossless asset :
  lossless FlatJSON.json_Marshal FlatJSON.json_Unmarshal asset.
Proof.
  exists (FlatJSON.encode asset). split; [done|].
  unfold FlatJSON.json_Unmarshal. by rewrite FlatJSON_decode_encode.
Qed.

Lemma FlatJSON_keeps_Registered :
  keeps_Registered FlatJSON.json_Marshal FlatJSON.json_Unmarshal.
Proof.
  intros asset assetJSON asset' [= <-]. unfold FlatJSON.json_Unmarshal.
  rewrite FlatJSON_decode_encode. by intros [= <-].
Qed.


Lemma FlatJSON_keeps_ApprovalTwo :
  keeps_ApprovalTwo FlatJSON.json_Marshal FlatJSON.json_Unmarshal.
Proof.
  intros asset assetJSON asset' [= <-]. unfold FlatJSON.json_Unmarshal.
  rewrite FlatJSON_decode_encode. by intros [= <-].
Qed.

(** ** The contract at work *)

(** The second approval of the seeded asset1. *)
Lemma ApproveRequestTwo_registers_witness :
  ∃ stub' asset',
    ApproveRequestTwo FlatJSON.json_Marshal FlatJSON.json_Unmarshal
      "asset1" Ledger.seeded = (Ok tt, stub') ∧
    stored FlatJSON.json_Unmarshal stub' "asset1" asset' ∧
    ApprovalTwo asset' = 1 ∧
    Registered asset' = 1 ∧
    ID asset' = ID Ledger.asset1 ∧
    Description asset' = Description Ledger.asset1 ∧
    Owner asset' = Owner Ledger.asset1 ∧
    ApprovalOne asset' = ApprovalOne Ledger.asset1.
Proof.
  apply (ApproveRequestTwo_registers FlatJSON.json_Marshal FlatJSON.json_Unmarshal
           Ledger.seeded "asset1").
  - intros c. reflexivity.
  - exists (FlatJSON.encode Ledger.asset1). split; vm_compute; reflexivity.
  - eexists. split; vm_compute; reflexivity.
Defined.

(** UpdateAsset with [registered] 1 on the seeded asset1, whose flag is
    0: the flag is 1 afterwards and the invocation is not the second
    approval. *)
Lemma UpdateAsset_sets_Registered :
  ¬ Registered_only_by_second_approval FlatJSON.json_Marshal FlatJSON.json_Unmarshal.
Proof.
  intros H.
  destruct (H (InvokeUpdateAsset "asset1" "myAsset" "Org1" 0 0 1)
              Ledger.seeded
              (stub_of (<["asset1" := FlatJSON.encode
                            (mkAsset "asset1" "myAsset" "Org1" 0 0 1)]>
                          (world Ledger.seeded)))
              "asset1")
    as [Hset _].
  - intros c. reflexivity.
  - vm_compute. reflexivity.
  - discriminate Hset.
    + intros (asset & (assetJSON & Hw & Hd) & HR).
      vm_compute in Hw. injection Hw as <-.
      vm_compute in Hd. injection Hd as <-. discriminate HR.
    + exists (mkAsset "asset1" "myAsset" "Org1" 0 0 1). split; [|reflexivity].
      eexists. split; vm_compute; reflexivity.
Qed.

(** CreateAsset too stores the [registered] it is given: asset3 is
    created with the flag at 1. *)
Example CreateAsset_sets_Registered :
  ∃ stub',
    invoke FlatJSON.json_Marshal FlatJSON.json_Unmarshal
      (InvokeCreateAsset "asset3" "desc" "Org2" 0 0 1) Ledger.seeded
      = (Ok tt, stub') ∧
    has_Registered FlatJSON.json_Unmarshal stub' "asset3" 1.
Proof.
  eexists. split; [vm_compute; reflexivity|].
  exists (mkAsset "asset3" "desc" "Org2" 0 0 1). split; [|reflexivity].
  eexists. split; vm_compute; reflexivity.
Qed.

(** InitLedger overwrites its seeds: after the second approval of asset1
    the flag is 1, and after InitLedger it is 0 again. *)
Example InitLedger_resets_Registered :
  ∃ stub1 stub2,
    invoke FlatJSON.json_Marshal FlatJSON.json_Unmarshal
      (InvokeApproveRequestTwo "asset1") Ledger.seeded = (Ok tt, stub1) ∧
    has_Registered FlatJSON.json_Unmarshal stub1 "asset1" 1 ∧
    invoke FlatJSON.json_Marshal FlatJSON.json_Unmarshal
      InvokeInitLedger stub1 = (Ok tt, stub2) ∧
    has_Registered FlatJSON.json_Unmarshal stub2 "asset1" 0.
Proof.
  eexists. eexists. split; [vm_compute; reflexivity|]. split; [|split].
  - exists (mkAsset "asset1" "myAsset" "Org1" 0 1 1). split; [|reflexivity].
    eexists. split; vm_compute; reflexivity.
  - vm_compute. reflexivity.
  - exists Ledger.asset1. split; [|reflexivity].
    eexists. split; vm_compute; reflexivity.
Qed.

(** The same UpdateAsset, read through the table of written flags. *)
Lemma Registered_after_invocation_witness :
  match Registered_written
          (InvokeUpdateAsset "asset1" "myAsset" "Org1" 0 0 1) "asset1" with
  | Some registered =>
      Registered (mkAsset "asset1" "myAsset" "Org1" 0 0 1) = registered
  | None =>
      ∃ asset, stored FlatJSON.json_Unmarshal Ledger.seeded "asset1" asset ∧
               Registered (mkAsset "asset1" "myAsset" "Org1" 0 0 1)
                 = Registered asset
  end.
Proof.
  apply (Registered_after_invocation FlatJSON.json_Marshal FlatJSON.json_Unmarshal
           (InvokeUpdateAsset "asset1" "myAsset" "Org1" 0 0 1)
           Ledger.seeded
           (stub_of (<["asset1" := FlatJSON.encode
                         (mkAsset "asset1" "myAsset" "Org1" 0 0 1)]>
                       (world Ledger.seeded)))).
  - exact FlatJSON_keeps_Registered.
  - vm_compute. reflexivity.
  - eexists. split; vm_compute; reflexivity.
Defined.


(** Scenario 3: creating the seeded asset1 again. *)
Lemma CreateAsset_existing_witness :
  CreateAsset FlatJSON.json_Marshal "asset1" "desc" "Org2" 0 0 1 Ledger.seeded
    = (Err (AlreadyExists "asset1"), Ledger.seeded).
Proof.
  apply (CreateAsset_existing FlatJSON.json_Marshal Ledger.seeded
           "asset1" "desc" "Org2" 0 0 1 (FlatJSON.encode Ledger.asset1)).
  - reflexivity.
  - vm_compute. reflexivity.
Defined.

(** The key asset3, which the seeded ledger does not hold. *)
Lemma absent_id_NotFound_witness :
  ReadAsset FlatJSON.json_Unmarshal "asset3" Ledger.seeded
    = (Err (NotFound "asset3"), Ledger.seeded) ∧
  DeleteAsset "asset3" Ledger.seeded = (Err (NotFound "asset3"), Ledger.seeded) ∧
  ApproveRequestTwo FlatJSON.json_Marshal FlatJSON.json_Unmarshal
    "asset3" Ledger.seeded = (Err (NotFound "asset3"), Ledger.seeded) ∧
  AssetExists "asset3" Ledger.seeded = (Ok false, Ledger.seeded).
Proof.
  destruct (absent_id_NotFound FlatJSON.json_Marshal FlatJSON.json_Unmarshal
              Ledger.seeded "asset3")
    as (Hread & _ & Hdelete & _ & _ & Htwo & Hexists & _).
  - intros c. reflexivity.
  - vm_compute. reflexivity.
  - exact (conj Hread (conj Hdelete (conj Htwo Hexists))).
Defined.


(** The first approval of the seeded asset1, once and again. *)
Lemma ApproveRequestOne_idempotent_witness :
  ∃ stub' asset',
    ApproveRequestOne FlatJSON.json_Marshal FlatJSON.json_Unmarshal
      "asset1" Ledger.seeded = (Ok tt, stub') ∧
    stored FlatJSON.json_Unmarshal stub' "asset1" asset' ∧
    ApprovalOne asset' = 1 ∧
    ApprovalTwo asset' = ApprovalTwo Ledger.asset1 ∧
    Registered asset' = Registered Ledger.asset1 ∧
    ID asset' = ID Ledger.asset1 ∧
    Description asset' = Description Ledger.asset1 ∧
    Owner asset' = Owner Ledger.asset1 ∧
    ApproveRequestOne FlatJSON.json_Marshal FlatJSON.json_Unmarshal
      "asset1" stub' = (Ok tt, stub').
Proof.
  apply (ApproveRequestOne_idempotent FlatJSON.json_Marshal
           FlatJSON.json_Unmarshal Ledger.seeded "asset1").
  - intros c. reflexivity.
  - eexists. split; vm_compute; reflexivity.
  - eexists. split; vm_compute; reflexivity.
Defined.

(** Scenario 1: InitLedger on the empty ledger, then GetAllAssets. *)
Lemma InitLedger_then_GetAllAssets_witness :
  ∃ stub',
    InitLedger FlatJSON.json_Marshal (stub_of ∅) = (Ok tt, stub') ∧
    GetAllAssets FlatJSON.json_Unmarshal stub' =
      (Ok [ mkQueryResult "asset1" (mkAsset "asset1" "myAsset" "Org1" 0 0 0);
            mkQueryResult "asset2" (mkAsset "asset2" "anotherAsset" "Org1" 0 0 0) ],
       stub').
Proof.
  apply (InitLedger_then_GetAllAssets FlatJSON.json_Marshal FlatJSON.json_Unmarshal
           (stub_of ∅)).
  - intros c. reflexivity.
  - reflexivity.
  - eexists. split; vm_compute; reflexivity.
  - eexists. split; vm_compute; reflexivity.
Defined.

(** The bulk query on the damaged ledger stops at asset2 with the
    decoding error and returns no list. *)
Lemma GetAllAssets_all_or_nothing_witness :
  GetAllAssets FlatJSON.json_Unmarshal Ledger.damaged
    = (Err "invalid character looking for beginning of value", Ledger.damaged).
Proof.
  destruct (GetAllAssets_all_or_nothing FlatJSON.json_Unmarshal Ledger.damaged)
    as (_ & _ & Hbad & _).
  - intros c. reflexivity.
  - apply (Hbad [mkKV "asset1" (FlatJSON.encode Ledger.asset1)]
                (mkKV "asset2" "{") []).
    + vm_compute. reflexivity.
    + constructor; [|constructor]. eexists. vm_compute. reflexivity.
    + vm_compute. reflexivity.
Defined.

(** CreateAsset of asset3 on the read-only ledger: the write is refused
    and the stub is as it was. *)
Lemma failed_invocation_writes_nothing_witness :
  (invoke FlatJSON.json_Marshal FlatJSON.json_Unmarshal
     (InvokeCreateAsset "asset3" "desc" "Org2" 0 0 0) Ledger.read_only).2
  = Ledger.read_only.
Proof.
  apply (failed_invocation_writes_nothing FlatJSON.json_Marshal
           FlatJSON.json_Unmarshal
           (InvokeCreateAsset "asset3" "desc" "Org2" 0 0 0)
           Ledger.read_only "ledger is read-only").
  - reflexivity.
  - vm_compute. reflexivity.
Defined.

(** ** The further properties at work *)

(** UpdateAsset repairs the damaged asset2. *)
Lemma UpdateAsset_overwrites_witness :
  ∃ stub',
    UpdateAsset FlatJSON.json_Marshal "asset2" "anotherAsset" "Org2" 1 0 0
      Ledger.damaged = (Ok tt, stub') ∧
    ReadAsset FlatJSON.json_Unmarshal "asset2" stub' =
      (Ok (mkAsset "asset2" "anotherAsset" "Org2" 1 0 0), stub') ∧
    (∀ key, key ≠ "asset2" → world stub' !! key = world Ledger.damaged !! key).
Proof.
  apply (UpdateAsset_overwrites FlatJSON.json_Marshal FlatJSON.json_Unmarshal
           Ledger.damaged "asset2" "anotherAsset" "Org2" 1 0 0 "{").
  - intros c. reflexivity.
  - vm_compute. reflexivity.
  - eexists. split; vm_compute; reflexivity.
Defined.

(** DeleteAsset removes the damaged asset2. *)
Lemma DeleteAsset_removes_witness :
  ∃ stub',
    DeleteAsset "asset2" Ledger.damaged = (Ok tt, stub') ∧
    world stub' !! "asset2" = None ∧
    (∀ key, key ≠ "asset2" → world stub' !! key = world Ledger.damaged !! key) ∧
    ReadAsset FlatJSON.json_Unmarshal "asset2" stub'
      = (Err (NotFound "asset2"), stub') ∧
    DeleteAsset "asset2" stub' = (Err (NotFound "asset2"), stub').
Proof.
  apply (DeleteAsset_removes FlatJSON.json_Unmarshal Ledger.damaged "asset2" "{").
  - intros c. reflexivity.
  - vm_compute. reflexivity.
Defined.

(** Scenarios 2 and 6: asset3 created on the seeded ledger and deleted. *)
Lemma CreateAsset_then_DeleteAsset_witness :
  ∃ stub',
    CreateAsset FlatJSON.json_Marshal "asset3" "desc" "Org2" 0 0 0 Ledger.seeded
      = (Ok tt, stub') ∧
    DeleteAsset "asset3" stub' = (Ok tt, Ledger.seeded).
Proof.
  apply (CreateAsset_then_DeleteAsset FlatJSON.json_Marshal Ledger.seeded
           "asset3" "desc" "Org2" 0 0 0
           (FlatJSON.encode (mkAsset "asset3" "desc" "Org2" 0 0 0))).
  - intros c. reflexivity.
  - vm_compute. reflexivity.
  - reflexivity.
Defined.

(** InitLedger on the damaged ledger puts the seed back under asset2. *)
Lemma InitLedger_overwrites_witness :
  ∃ stub',
    InitLedger FlatJSON.json_Marshal Ledger.damaged = (Ok tt, stub') ∧
    stored FlatJSON.json_Unmarshal stub' "asset1"
      (mkAsset "asset1" "myAsset" "Org1" 0 0 0) ∧
    stored FlatJSON.json_Unmarshal stub' "asset2"
      (mkAsset "asset2" "anotherAsset" "Org1" 0 0 0) ∧
    (∀ key, key ≠ "asset1" → key ≠ "asset2" →
       world stub' !! key = world Ledger.damaged !! key) ∧
    InitLedger FlatJSON.json_Marshal stub' = (Ok tt, stub').
Proof.
  apply (InitLedger_overwrites FlatJSON.json_Marshal FlatJSON.json_Unmarshal
           Ledger.damaged).
  - intros c. reflexivity.
  - eexists. split; vm_compute; reflexivity.
  - eexists. split; vm_compute; reflexivity.
Defined.

(** InitLedger when the write of asset2 is refused: asset1 stays. *)
Lemma InitLedger_no_rollback_witness :
  InitLedger FlatJSON.json_Marshal Ledger.half_refused =
    (Err (PutFailed "peer unavailable"),
     mkStub (<["asset1" := FlatJSON.encode Ledger.asset1]>
               (world Ledger.half_refused))
            (refuse Ledger.half_refused)).
Proof.
  apply (InitLedger_no_rollback FlatJSON.json_Marshal Ledger.half_refused
           (FlatJSON.encode Ledger.asset1) (FlatJSON.encode Ledger.asset2)).
  - reflexivity.
  - reflexivity.
  - vm_compute. reflexivity.
  - vm_compute. reflexivity.
Defined.

(** The bulk query that fails on the damaged ledger leaves it as it was. *)
Lemma readers_keep_stub_witness :
  (invoke FlatJSON.json_Marshal FlatJSON.json_Unmarshal
     InvokeGetAllAssets Ledger.damaged).2 = Ledger.damaged.
Proof.
  apply (readers_keep_stub FlatJSON.json_Marshal FlatJSON.json_Unmarshal
           InvokeGetAllAssets Ledger.damaged
           (Err "invalid character looking for beginning of value")).
  - reflexivity.
  - vm_compute. reflexivity.
Defined.

(** A transfer of asset1 when the platform refuses to read it. *)
Lemma refused_read_fails_witness :
  invoke FlatJSON.json_Marshal FlatJSON.json_Unmarshal
    (InvokeTransferAsset "asset1" "Org2") Ledger.unreadable
  = (Err (ReadFailed "peer unavailable"), Ledger.unreadable).
Proof.
  apply (refused_read_fails FlatJSON.json_Marshal FlatJSON.json_Unmarshal
           (InvokeTransferAsset "asset1" "Org2") Ledger.unreadable "asset1").
  - reflexivity.
  - vm_compute. reflexivity.
Defined.

(** The damaged asset2 exists and cannot be read, transferred or approved. *)
Lemma undecodable_record_witness :
  AssetExists "asset2" Ledger.damaged = (Ok true, Ledger.damaged) ∧
  ReadAsset FlatJSON.json_Unmarshal "asset2" Ledger.damaged
    = (Err "invalid character looking for beginning of value", Ledger.damaged) ∧
  ApproveRequestTwo FlatJSON.json_Marshal FlatJSON.json_Unmarshal
    "asset2" Ledger.damaged
    = (Err "invalid character looking for beginning of value", Ledger.damaged).
Proof.
  destruct (undecodable_record FlatJSON.json_Marshal FlatJSON.json_Unmarshal
              Ledger.damaged "asset2" "{"
              "invalid character looking for beginning of value")
    as (Hexists & Hread & _ & _ & Htwo).
  - reflexivity.
  - vm_compute. reflexivity.
  - vm_compute. reflexivity.
  - exact (conj Hexists (conj Hread Htwo)).
Defined.

(** The second approval of the seeded asset1, once and again. *)
Lemma ApproveRequestTwo_idempotent_witness :
  ∃ stub',
    ApproveRequestTwo FlatJSON.json_Marshal FlatJSON.json_Unmarshal
      "asset1" Ledger.seeded = (Ok tt, stub') ∧
    ApproveRequestTwo FlatJSON.json_Marshal FlatJSON.json_Unmarshal
      "asset1" stub' = (Ok tt, stub').
Proof.
  apply (ApproveRequestTwo_idempotent FlatJSON.json_Marshal FlatJSON.json_Unmarshal
           Ledger.seeded "asset1" Ledger.asset1).
  - intros c. reflexivity.
  - eexists. split; vm_compute; reflexivity.
  - eexists. split; vm_compute; reflexivity.
Defined.

(** Scenarios 4 and 5 in both orders on the seeded asset1. *)
Lemma approvals_commute_witness :
  ∃ stub1 stub2 stub12,
    ApproveRequestOne FlatJSON.json_Marshal FlatJSON.json_Unmarshal
      "asset1" Ledger.seeded = (Ok tt, stub1) ∧
    ApproveRequestTwo FlatJSON.json_Marshal FlatJSON.json_Unmarshal
      "asset1" stub1 = (Ok tt, stub12) ∧
    ApproveRequestTwo FlatJSON.json_Marshal FlatJSON.json_Unmarshal
      "asset1" Ledger.seeded = (Ok tt, stub2) ∧
    ApproveRequestOne FlatJSON.json_Marshal FlatJSON.json_Unmarshal
      "asset1" stub2 = (Ok tt, stub12) ∧
    stored FlatJSON.json_Unmarshal stub12 "asset1"
      (mkAsset "asset1" "myAsset" "Org1" 1 1 1).
Proof.
  apply (approvals_commute FlatJSON.json_Marshal FlatJSON.json_Unmarshal
           Ledger.seeded "asset1" Ledger.asset1).
  - intros c. reflexivity.
  - eexists. split; vm_compute; reflexivity.
  - eexists. split; vm_compute; reflexivity.
  - eexists. split; vm_compute; reflexivity.
  - eexists. split; vm_compute; reflexivity.
Defined.



(** UpdateAsset of asset1 leaves asset2 as it was. *)
Lemma invocation_touches_only_witness :
  world (invoke FlatJSON.json_Marshal FlatJSON.json_Unmarshal
           (InvokeUpdateAsset "asset1" "myAsset" "Org2" 1 1 1) Ledger.seeded).2
    !! "asset2"
  = world Ledger.seeded !! "asset2".
Proof.
  apply (invocation_touches_only FlatJSON.json_Marshal FlatJSON.json_Unmarshal
           (InvokeUpdateAsset "asset1" "myAsset" "Org2" 1 1 1) Ledger.seeded
           (Ok tt)).
  - vm_compute. reflexivity.
  - apply (bool_decide_unpack _). vm_compute. reflexivity.
Defined.


(** The list GetAllAssets returns on the seeded ledger. *)
Lemma GetAllAssets_Ok_complete_witness :
  length [ mkQueryResult "asset1" Ledger.asset1;
           mkQueryResult "asset2" Ledger.asset2 ] = size (world Ledger.seeded) ∧
  (∀ key asset,
     mkQueryResult key asset ∈ [ mkQueryResult "asset1" Ledger.asset1;
                                 mkQueryResult "asset2" Ledger.asset2 ]
     ↔ stored FlatJSON.json_Unmarshal Ledger.seeded key asset) ∧
  Sorted (λ key1 key2, String.leb key1 key2 = true)
    (Key <$> [ mkQueryResult "asset1" Ledger.asset1;
               mkQueryResult "asset2" Ledger.asset2 ]) ∧
  (world Ledger.seeded = ∅ →
   [ mkQueryResult "asset1" Ledger.asset1;
     mkQueryResult "asset2" Ledger.asset2 ] = []).
Proof.
  apply (GetAllAssets_Ok_complete FlatJSON.json_Unmarshal Ledger.seeded _
           Ledger.seeded).
  vm_compute. reflexivity.
Defined.

(** After the second approval of asset1 on the ledger InitLedger made,
    registration still follows the second approval. *)
Lemma tracks_second_approval_preserved_witness :
  tracks_second_approval FlatJSON.json_Unmarshal
    (stub_of (<["asset1" := FlatJSON.encode
                  (mkAsset "asset1" "myAsset" "Org1" 0 1 1)]>
                (world Ledger.seeded))).
Proof.
  apply (tracks_second_approval_preserved
           FlatJSON.json_Marshal FlatJSON.json_Unmarshal
           (InvokeApproveRequestTwo "asset1") Ledger.seeded (Ok tt)).
  - exact FlatJSON_keeps_Registered.
  - exact FlatJSON_keeps_ApprovalTwo.
  - intros key asset (assetJSON & Hw & Hd). vm_compute in Hw.
    destruct (decide (key = "asset2")) as [->|H2].
    + vm_compute in Hw. injection Hw as <-.
      vm_compute in Hd. by injection Hd as <-.
    + destruct (decide (key = "asset1")) as [->|H1].
      * vm_compute in Hw. injection Hw as <-.
        vm_compute in Hd. by injection Hd as <-.
      * change (world Ledger.seeded !! key = Some assetJSON) in Hw.
        unfold Ledger.seeded, stub_of in Hw. simpl in Hw.
        by rewrite !lookup_insert_ne, lookup_empty in Hw.
  - exact I.
  - vm_compute. reflexivity.
Defined.
